(** * Jobly: the partial-update SQL compiler and its two callers

    A shallow embedding of

    - [helpers/sql.js]      ([sqlForPartialUpdate]),
    - [models/company.js]   ([Company.update]),
    - [models/job.js]       ([Job.update]),

    and the properties of the partial-update contract proved about them,
    then of the other functions of the two models ([create], [findAll],
    [get], [remove]).

    JavaScript objects live in a heap and are passed by reference; the
    code is written in a state-and-exception monad over a store made of
    that heap, the state of the database behind [db.query] and the list
    of statements sent to it. *)

From Stdlib Require Import ZArith Lia.
From stdpp Require Import base option list strings pretty.

Local Open Scope string_scope.
Local Open Scope list_scope.

(** ** JavaScript values and plain objects *)

(** Scalars, as a JSON request body carries them. [JsNumber z] is the
    integral number [z], a safe integer ([wf_value]): no function below
    does arithmetic on a value. Of any other truthy value (a function, an
    object, a number that is no safe integer, such as [0.5] or [1e21]) only
    what the code below can see of it is kept: that it is truthy, and the
    string [str] a template literal turns it into. *)
Inductive JsValue : Type :=
  | JsUndefined
  | JsNull
  | JsBoolean (b : bool)
  | JsNumber (z : Z)
  | JsString (s : string)
  | JsOther (str : string).

#[export] Instance JsValue_eq_dec : EqDecision JsValue.
Proof. solve_decision. Defined.

(** A plain object is the list of its own enumerable string-keyed
    properties, in the order [Object.keys] enumerates them. Property
    names of an object are pairwise distinct ([wf_object]). *)
Abbreviation JsObject := (list (string * JsValue)).

Definition own_keys (o : JsObject) : list string := fst <$> o.

Definition own_values (o : JsObject) : list JsValue := snd <$> o.

Definition wf_object (o : JsObject) : Prop := NoDup (own_keys o).

(** The own property named [k]: the first (and, in a well-formed
    object, only) one. *)
Fixpoint own_property (o : JsObject) (k : string) : option JsValue :=
  match o with
  | [] => None
  | (k', v) :: rest => if String.eqb k' k then Some v else own_property rest k
  end.

(** [o[k]] on a plain object whose prototype has the properties
    [proto]: the own property, else the inherited one, else [undefined]. *)
Definition get_property (proto o : JsObject) (k : string) : JsValue :=
  match own_property o k with
  | Some v => v
  | None =>
      match own_property proto k with
      | Some v => v
      | None => JsUndefined
      end
  end.

(** *** From the order of creation to the order of enumeration

    [Object.keys] lists the keys that are array indices first, in
    ascending numeric order, then the other keys in the order the
    properties were created. *)

Definition digit_value (c : Ascii.ascii) : option N :=
  let n := Ascii.N_of_ascii c in
  if (48 <=? n)%N && (n <=? 57)%N then Some (n - 48)%N else None.

Fixpoint digits_value (acc : N) (s : string) : option N :=
  match s with
  | EmptyString => Some acc
  | String c s' =>
      match digit_value c with
      | Some d => digits_value (10 * acc + d)%N s'
      | None => None
      end
  end.

(** A key is an array index when it is the decimal writing, with no
    leading zero, of an integer from 0 to 2^32 - 2. *)
Definition array_index (k : string) : option N :=
  match k with
  | EmptyString => None
  | String _ _ =>
      match digits_value 0 k with
      | Some n =>
          if String.eqb (pretty n) k && (n <? 2 ^ 32 - 1)%N then Some n
          else None
      | None => None
      end
  end.

(** Assigning to a property the object has: the value changes, the
    place does not. *)
Fixpoint set_own (o : JsObject) (k : string) (v : JsValue) : JsObject :=
  match o with
  | [] => []
  | (k', v') :: rest =>
      if String.eqb k' k then (k', v) :: rest
      else (k', v') :: set_own rest k v
  end.

(** Creating a property whose key is the array index [n]: it goes after
    the array indices below [n]. *)
Fixpoint insert_index (n : N) (k : string) (v : JsValue) (o : JsObject)
    : JsObject :=
  match o with
  | [] => [(k, v)]
  | (k', v') :: rest =>
      match array_index k' with
      | Some n' =>
          if (n' <? n)%N then (k', v') :: insert_index n k v rest
          else (k, v) :: o
      | None => (k, v) :: o
      end
  end.

(** [o[k] = v], on an object seen as its enumeration. *)
Definition define_property (o : JsObject) (k : string) (v : JsValue)
    : JsObject :=
  match own_property o k with
  | Some _ => set_own o k v
  | None =>
      match array_index k with
      | Some n => insert_index n k v o
      | None => o ++ [(k, v)]
      end
  end.

(** The object that an object literal, or [JSON.parse], builds from
    properties written in the order [entries]. *)
Definition object_of (entries : list (string * JsValue)) : JsObject :=
  fold_left (λ o kv, define_property o kv.1 kv.2) entries [].

(** ToBoolean: [undefined], [null], [false], [0] and the empty string
    are falsy. *)
Definition ToBoolean (v : JsValue) : bool :=
  match v with
  | JsUndefined => false
  | JsNull => false
  | JsBoolean b => b
  | JsNumber z => negb (Z.eqb z 0)
  | JsString s => negb (String.eqb s EmptyString)
  | JsOther _ => true
  end.

(** ToString, as a template literal applies it to a substitution. A
    safe integer is written as its decimal digits. *)
Definition ToString (v : JsValue) : string :=
  match v with
  | JsUndefined => "undefined"
  | JsNull => "null"
  | JsBoolean true => "true"
  | JsBoolean false => "false"
  | JsNumber z => pretty z
  | JsString s => s
  | JsOther str => str
  end.

(** The values that stand for a value of the language: a [JsNumber] is
    a safe integer, of magnitude at most 2^53 - 1. The theorems that spell
    out a string made from a value assume it of that value. *)
Definition wf_value (v : JsValue) : Prop :=
  match v with
  | JsNumber z => (Z.abs z ≤ 2 ^ 53 - 1)%Z
  | _ => True
  end.

(** [a || b] *)
Definition JsOr (a b : JsValue) : JsValue :=
  if ToBoolean a then a else b.

(** [v === undefined] and [v === false]. *)
Definition isUndefined (v : JsValue) : bool :=
  match v with
  | JsUndefined => true
  | _ => false
  end.

Definition isFalse (v : JsValue) : bool :=
  match v with
  | JsBoolean false => true
  | _ => false
  end.

(** [arr.join(sep)] on an array of strings. *)
Definition Array_join (arr : list string) (sep : string) : string :=
  String.concat sep arr.

(** The double-quote and line-feed characters, as one-character strings. *)
Definition dq : string := String (Ascii.ascii_of_nat 34) EmptyString.
Definition nl : string := String (Ascii.ascii_of_nat 10) EmptyString.

(** ** Errors, the store and the monad *)

(** Modelled from the spec: the classes of [expressError.js], which the
    two modules import; a [BadRequest]-class and a [NotFound]-class error,
    each carrying its message. [TypeError] is the language's own error for
    a property read on [undefined]; [DatabaseError] is whatever [db.query]
    rejects with. *)
Inductive Exn : Type :=
  | BadRequestError (message : string)
  | NotFoundError (message : string)
  | TypeError
  | DatabaseError (message : string).

(** A statement handed to [db.query(text, params)]. *)
Record Query : Type := mkQuery {
  text : string;
  params : list JsValue;
}.

(** Modelled from the spec: the [db] module ("the database connection
    and query execution primitive"), an external collaborator. A query
    either rejects or resolves to its rows, and may change the database.

    With it, the other thing the modules run in: [objectPrototype], the
    properties every plain object inherits from [Object.prototype]
    ([constructor], [toString], ...). *)
Class Environment : Type := {
  objectPrototype : JsObject;
  DbState : Type;
  db_query : Query → DbState → (Exn + list JsObject) * DbState;
}.

(** The address of an object. *)
Abbreviation loc := nat (only parsing).

Section Runtime.
Context `{Environment}.

(** The store: the heap of objects, the database, and the statements
    sent to it so far, oldest first. An argument of a function is an
    object, given by its address, an index into the heap, or [undefined] or
    [null], given by an address outside the heap. *)
Record Store : Type := mkStore {
  heap : list JsObject;
  db : DbState;
  issued : list Query;
}.

Definition M (A : Type) : Type := Store → (Exn + A) * Store.

Definition ret {A} (x : A) : M A := λ σ, (inr x, σ).

Definition throw {A} (e : Exn) : M A := λ σ, (inl e, σ).

Definition bind {A B} (m : M A) (f : A → M B) : M B :=
  λ σ, match m σ with
       | (inr x, σ') => f x σ'
       | (inl e, σ') => (inl e, σ')
       end.

(** Dereference an object; [undefined] and [null] raise [TypeError]. *)
Definition deref (o : loc) : M JsObject :=
  λ σ, match heap σ !! o with
       | Some obj => (inr obj, σ)
       | None => (inl TypeError, σ)
       end.

(** An object literal: a fresh object at the end of the heap. *)
Definition alloc (obj : JsObject) : M loc :=
  λ σ, (inr (length (heap σ)),
        {| heap := heap σ ++ [obj]; db := db σ; issued := issued σ |}).

(** [await db.query(text, params)] *)
Definition query (q : Query) : M (list JsObject) :=
  λ σ, let '(r, d) := db_query q (db σ) in
       (r, {| heap := heap σ; db := d; issued := issued σ ++ [q] |}).

End Runtime.

Notation "'let*' x ':=' m 'in' k" := (bind m (λ x, k))
  (at level 10, x name, m at level 100, k at level 200, only parsing).

Section Builtins.
Context `{Environment}.

(** [Object.keys(o)] *)
Definition Object_keys (o : loc) : M (list string) :=
  let* obj := deref o in ret (own_keys obj).

(** [Object.values(o)] *)
Definition Object_values (o : loc) : M (list JsValue) :=
  let* obj := deref o in ret (own_values obj).

(** [o[k]] *)
Definition Get (o : loc) (k : string) : M JsValue :=
  let* obj := deref o in ret (get_property objectPrototype obj k).

(** [arr.map((x, idx) => f(x, idx))], the callback running in the monad. *)
Fixpoint Array_map_from {A B} (f : A → nat → M B) (idx : nat) (arr : list A)
    : M (list B) :=
  match arr with
  | [] => ret []
  | x :: rest =>
      let* y := f x idx in
      let* ys := Array_map_from f (S idx) rest in
      ret (y :: ys)
  end.

Definition Array_map {A B} (f : A → nat → M B) (arr : list A) : M (list B) :=
  Array_map_from f 0 arr.

End Builtins.

(** ** helpers/sql.js *)

Record SqlFragment : Type := mkFragment {
  setCols : string;
  values : list JsValue;
}.

(** The substitution [${c || colName}], where [c] is the value read from
    [jsToSql[colName]]: the column name a key resolves to. *)
Definition columnName (c : JsValue) (colName : string) : string :=
  ToString (JsOr c (JsString colName)).

(** The template literal [`"${c || colName}"=$${idx + 1}`]. *)
Definition colTemplate (c : JsValue) (colName : string) (idx : nat) : string :=
  dq +:+ columnName c colName +:+ dq +:+ "=$" +:+ pretty (idx + 1).

Section Sql.
Context `{Environment}.

Definition sqlForPartialUpdate (dataToUpdate jsToSql : loc) : M SqlFragment :=
  let* keys := Object_keys dataToUpdate in
  if Nat.eqb (length keys) 0 then throw (BadRequestError "No data") else
  let* cols := Array_map (λ colName idx,
                            let* c := Get jsToSql colName in
                            ret (colTemplate c colName idx)) keys in
  let* vals := Object_values dataToUpdate in
  ret {| setCols := Array_join cols ", "; values := vals |}.

End Sql.

(** ** models/company.js *)

Module Company.
Section Model.
Context `{Environment}.

(** The statements of [create], [findAll] and [get], as written. *)
Definition duplicateCheckSql : string :=
  "SELECT handle" +:+ nl +:+
  "           FROM companies" +:+ nl +:+
  "           WHERE handle = $1".

Definition insertSql : string :=
  "INSERT INTO companies" +:+ nl +:+
  "           (handle, name, description, num_employees, logo_url)" +:+ nl +:+
  "           VALUES ($1, $2, $3, $4, $5)" +:+ nl +:+
  "           RETURNING handle, name, description, num_employees AS " +:+
    dq +:+ "numEmployees" +:+ dq +:+ ", logo_url AS " +:+
    dq +:+ "logoUrl" +:+ dq.

Definition findAllSql : string :=
  "SELECT handle," +:+ nl +:+
  "              name," +:+ nl +:+
  "              description," +:+ nl +:+
  "              num_employees AS " +:+ dq +:+ "numEmployees" +:+ dq +:+
    "," +:+ nl +:+
  "              logo_url AS " +:+ dq +:+ "logoUrl" +:+ dq +:+ nl +:+
  "      FROM companies".

Definition getSql : string :=
  "SELECT handle," +:+ nl +:+
  "                  name," +:+ nl +:+
  "                  description," +:+ nl +:+
  "                  num_employees AS " +:+ dq +:+ "numEmployees" +:+ dq +:+
    "," +:+ nl +:+
  "                  logo_url AS " +:+ dq +:+ "logoUrl" +:+ dq +:+ nl +:+
  "           FROM companies" +:+ nl +:+
  "           WHERE handle = $1".

Definition removeSql : string :=
  "DELETE" +:+ nl +:+
  "           FROM companies" +:+ nl +:+
  "           WHERE handle = $1" +:+ nl +:+
  "           RETURNING handle".

(** [create({ handle, name, description, numEmployees, logoUrl })]: the
    parameter is destructured on entry; [result.rows[0]] is [undefined]
    ([None]) when the insert returns no row. *)
Definition create (data : loc) : M (option JsObject) :=
  let* handle := Get data "handle" in
  let* name := Get data "name" in
  let* description := Get data "description" in
  let* numEmployees := Get data "numEmployees" in
  let* logoUrl := Get data "logoUrl" in
  let* duplicateCheck :=
    query {| text := duplicateCheckSql; params := [handle] |} in
  match duplicateCheck with
  | _ :: _ =>
      throw (BadRequestError ("Duplicate company: " +:+ ToString handle))
  | [] =>
      let* result :=
        query {| text := insertSql;
                 params := [handle; name; description; numEmployees; logoUrl] |} in
      ret (head result)
  end.

(** [findAll(filters = {})]: an absent or [undefined] argument ([None])
    is the default, a fresh empty object; an address outside the heap
    stands for [null]. The local arrays [values] and [sqlToInsert] and
    the string [query] (here [queryText]) are rebound where the source
    pushes to them or appends. *)
Definition findAll (filters : option loc) : M (list JsObject) :=
  let* filters := match filters with
                  | Some o => ret o
                  | None => alloc []
                  end in
  let queryText := findAllSql in
  let values := [] in
  let sqlToInsert := [] in
  let* name := Get filters "name" in
  let* minEmployees := Get filters "minEmployees" in
  let* maxEmployees := Get filters "maxEmployees" in
  let '(values, sqlToInsert) :=
    if negb (isUndefined name) then
      let values := values ++ [JsString ("%" +:+ ToString name +:+ "%")] in
      (values, sqlToInsert ++ ["name ILIKE $" +:+ pretty (length values)])
    else (values, sqlToInsert) in
  let '(values, sqlToInsert) :=
    if negb (isUndefined minEmployees) then
      let values :=
        values ++ [JsString ("%" +:+ ToString minEmployees +:+ "%")] in
      (values,
       sqlToInsert ++ ["num_employees >= $" +:+ pretty (length values)])
    else (values, sqlToInsert) in
  let '(values, sqlToInsert) :=
    if negb (isUndefined maxEmployees) then
      let values :=
        values ++ [JsString ("%" +:+ ToString maxEmployees +:+ "%")] in
      (values,
       sqlToInsert ++ ["num_employees <= $" +:+ pretty (length values)])
    else (values, sqlToInsert) in
  let queryText :=
    if Nat.ltb 0 (length sqlToInsert) then
      queryText +:+ "WHERE" +:+ Array_join sqlToInsert " AND "
    else queryText in
  let queryText := queryText +:+ "ORDER BY name" in
  let* companiesRes := query {| text := queryText; params := values |} in
  ret companiesRes.

Definition get (handle : JsValue) : M JsObject :=
  let* companyRes := query {| text := getSql; params := [handle] |} in
  match companyRes with
  | company :: _ => ret company
  | [] => throw (NotFoundError ("No company: " +:+ ToString handle))
  end.

(** The object literal passed as [jsToSql]. *)
Definition jsToSql : JsObject :=
  [("numEmployees", JsString "num_employees");
   ("logoUrl", JsString "logo_url")].

(** The template literal of [querySql], as a function of its two
    substitutions. *)
Definition querySql (setCols handleVarIdx : string) : string :=
  "UPDATE companies " +:+ nl +:+
  "                      SET " +:+ setCols +:+ " " +:+ nl +:+
  "                      WHERE handle = " +:+ handleVarIdx +:+ " " +:+ nl +:+
  "                      RETURNING handle, " +:+ nl +:+
  "                                name, " +:+ nl +:+
  "                                description, " +:+ nl +:+
  "                                num_employees AS " +:+
    dq +:+ "numEmployees" +:+ dq +:+ ", " +:+ nl +:+
  "                                logo_url AS " +:+
    dq +:+ "logoUrl" +:+ dq.

(** [update(handle, data)], for [data] an object. *)
Definition update (handle : JsValue) (data : loc) : M JsObject :=
  let* table := alloc jsToSql in
  let* r := sqlForPartialUpdate data table in
  let handleVarIdx := "$" +:+ pretty (length (values r) + 1) in
  let* rows := query {| text := querySql (setCols r) handleVarIdx;
                        params := values r ++ [handle] |} in
  match rows with
  | company :: _ => ret company
  | [] => throw (NotFoundError ("No company: " +:+ ToString handle))
  end.

(** [remove] returns [undefined]. *)
Definition remove (handle : JsValue) : M unit :=
  let* result := query {| text := removeSql; params := [handle] |} in
  match result with
  | company :: _ => ret tt
  | [] => throw (NotFoundError ("No company: " +:+ ToString handle))
  end.

End Model.
End Company.

(** ** models/job.js *)

Module Job.
Section Model.
Context `{Environment}.

Definition duplicateCheckSql : string :=
  "SELECT id" +:+ nl +:+
  "           FROM jobs" +:+ nl +:+
  "           WHERE id = $1".

Definition insertSql : string :=
  "INSERT INTO jobs" +:+ nl +:+
  "           (id, title, salary, equity, company_handle)" +:+ nl +:+
  "           VALUES ($1, $2, $3, $4, $5)" +:+ nl +:+
  "           RETURNING id, title, salary, equity, company_handle AS " +:+
    dq +:+ "companyHandle" +:+ dq.

Definition findAllSql : string :=
  "SELECT id," +:+ nl +:+
  "              title," +:+ nl +:+
  "              salary," +:+ nl +:+
  "              equity," +:+ nl +:+
  "              company_handle AS " +:+ dq +:+ "companyHandle" +:+ dq +:+ nl +:+
  "      FROM jobs".

Definition getSql : string :=
  "SELECT id," +:+ nl +:+
  "                  title," +:+ nl +:+
  "                  salary," +:+ nl +:+
  "                  equity," +:+ nl +:+
  "                  company_handle AS " +:+ dq +:+ "companyHandle" +:+ dq +:+
    nl +:+
  "           FROM jobs" +:+ nl +:+
  "           WHERE id = $1".

Definition removeSql : string :=
  "DELETE" +:+ nl +:+
  "           FROM jobs" +:+ nl +:+
  "           WHERE id = $1" +:+ nl +:+
  "           RETURNING id".

Definition create (data : loc) : M (option JsObject) :=
  let* id := Get data "id" in
  let* title := Get data "title" in
  let* salary := Get data "salary" in
  let* equity := Get data "equity" in
  let* companyHandle := Get data "companyHandle" in
  let* duplicateCheck :=
    query {| text := duplicateCheckSql; params := [id] |} in
  match duplicateCheck with
  | _ :: _ => throw (BadRequestError ("Duplicate job: " +:+ ToString id))
  | [] =>
      let* result :=
        query {| text := insertSql;
                 params := [id; title; salary; equity; companyHandle] |} in
      ret (head result)
  end.

Definition findAll (filters : option loc) : M (list JsObject) :=
  let* filters := match filters with
                  | Some o => ret o
                  | None => alloc []
                  end in
  let queryText := findAllSql in
  let values := [] in
  let sqlToInsert := [] in
  let* title := Get filters "title" in
  let* minSalary := Get filters "minSalary" in
  let* hasEquity := Get filters "hasEquity" in
  let '(values, sqlToInsert) :=
    if negb (isUndefined title) then
      let values := values ++ [JsString ("%" +:+ ToString title +:+ "%")] in
      (values, sqlToInsert ++ ["title ILIKE $" +:+ pretty (length values)])
    else (values, sqlToInsert) in
  let '(values, sqlToInsert) :=
    if negb (isFalse hasEquity) then
      let values := values ++ [JsString "%True%"] in
      (values, sqlToInsert ++ ["equity > $" +:+ pretty (length values)])
    else (values, sqlToInsert) in
  let '(values, sqlToInsert) :=
    if negb (isUndefined minSalary) then
      let values :=
        values ++ [JsString ("%" +:+ ToString minSalary +:+ "%")] in
      (values, sqlToInsert ++ ["salary >= $" +:+ pretty (length values)])
    else (values, sqlToInsert) in
  let queryText :=
    if Nat.ltb 0 (length sqlToInsert) then
      queryText +:+ "WHERE" +:+ Array_join sqlToInsert " AND "
    else queryText in
  let queryText := queryText +:+ "ORDER BY title" in
  let* jobsRes := query {| text := queryText; params := values |} in
  ret jobsRes.

Definition get (id : JsValue) : M JsObject :=
  let* jobRes := query {| text := getSql; params := [id] |} in
  match jobRes with
  | job :: _ => ret job
  | [] => throw (NotFoundError ("No job: " +:+ ToString id))
  end.

Definition jsToSql : JsObject :=
  [("equity", JsString "equity");
   ("companyHandle", JsString "company_handle")].

Definition querySql (setCols idVarIdx : string) : string :=
  "UPDATE jobs " +:+ nl +:+
  "                      SET " +:+ setCols +:+ " " +:+ nl +:+
  "                      WHERE id = " +:+ idVarIdx +:+ " " +:+ nl +:+
  "                      RETURNING id, " +:+ nl +:+
  "                                title, " +:+ nl +:+
  "                                salary, " +:+ nl +:+
  "                                equity AS " +:+
    dq +:+ "equity" +:+ dq +:+ ", " +:+ nl +:+
  "                                company_handle AS " +:+
    dq +:+ "companyHandle" +:+ dq.

(** [update(id, data)], for [data] an object. *)
Definition update (id : JsValue) (data : loc) : M JsObject :=
  let* table := alloc jsToSql in
  let* r := sqlForPartialUpdate data table in
  let idVarIdx := "$" +:+ pretty (length (values r) + 1) in
  let* rows := query {| text := querySql (setCols r) idVarIdx;
                        params := values r ++ [id] |} in
  match rows with
  | job :: _ => ret job
  | [] => throw (NotFoundError ("No job: " +:+ ToString id))
  end.

Definition remove (id : JsValue) : M unit :=
  let* result := query {| text := removeSql; params := [id] |} in
  match result with
  | job :: _ => ret tt
  | [] => throw (NotFoundError ("No job: " +:+ ToString id))
  end.

End Model.
End Job.

(** ** Delimited identifiers of SQL *)




(** ** Databases and stores for the examples *)

(** [Object.prototype] as Node has it. *)
Definition nodePrototype : JsObject :=
  [("constructor", JsOther "function Object() { [native code] }");
   ("__defineGetter__", JsOther "function __defineGetter__() { [native code] }");
   ("__defineSetter__", JsOther "function __defineSetter__() { [native code] }");
   ("hasOwnProperty", JsOther "function hasOwnProperty() { [native code] }");
   ("__lookupGetter__", JsOther "function __lookupGetter__() { [native code] }");
   ("__lookupSetter__", JsOther "function __lookupSetter__() { [native code] }");
   ("isPrototypeOf", JsOther "function isPrototypeOf() { [native code] }");
   ("propertyIsEnumerable",
    JsOther "function propertyIsEnumerable() { [native code] }");
   ("toString", JsOther "function toString() { [native code] }");
   ("valueOf", JsOther "function valueOf() { [native code] }");
   ("__proto__", JsOther "[object Object]");
   ("toLocaleString", JsOther "function toLocaleString() { [native code] }")].

(** A database holding one row, which every statement returns and leaves
    as it is. *)
Definition oneRowEnv : Environment :=
  {| objectPrototype := nodePrototype;
     DbState := JsObject; db_query := λ _ row, (inr [row], row) |}.

(** A database with no rows. *)
Definition noRowEnv : Environment :=
  {| objectPrototype := nodePrototype;
     DbState := unit; db_query := λ _ s, (inr [], s) |}.

(** [{ firstName: 'Aliya', age: 32 }] at address 0 and
    [{ firstName: 'first_name' }] at address 1, as in the example heading
    [helpers/sql.js]; the empty object at address 2. *)
Definition aliyaStore : @Store noRowEnv :=
  @mkStore noRowEnv
    [[("firstName", JsString "Aliya"); ("age", JsNumber 32)];
     [("firstName", JsString "first_name")];
     []]
    tt [].

(** A table mapping a key to the empty string: [{ a: 1 }] at address 0,
    [{ a: '' }] at address 1. *)
Definition emptyNameStore : @Store noRowEnv :=
  @mkStore noRowEnv [[("a", JsNumber 1)]; [("a", JsString EmptyString)]] tt [].

(** Two payloads with the same keys and other values, at addresses 0 and
    1, and two tables that differ outside those keys, at addresses 2 and
    3. *)
Definition jobStore : @Store oneRowEnv :=
  @mkStore oneRowEnv
    [[("equity", JsNull); ("companyHandle", JsNull)];
     [("equity", JsNumber 3); ("companyHandle", JsString "berkshire")];
     [("companyHandle", JsString "company_handle")];
     [("title", JsString "job_title");
      ("companyHandle", JsString "company_handle")]]
    [("id", JsString "j1")] [].


(** Filters and a new company: [{ name: 'net', maxEmployees: 5 }] at
    address 0, [{ hasEquity: false }] at address 1,
    [{ handle: 'c1', name: 'C1' }] at address 2, [{ name: 'net' }] at
    address 3; a database that answers every statement with its one
    row. *)
Definition listingStore : @Store oneRowEnv :=
  @mkStore oneRowEnv
    [[("name", JsString "net"); ("maxEmployees", JsNumber 5)];
     [("hasEquity", JsBoolean false)];
     [("handle", JsString "c1"); ("name", JsString "C1")];
     [("name", JsString "net")]]
    [("handle", JsString "c1")] [].

(** The same heap over the database with no rows. *)
Definition vacantStore : @Store noRowEnv :=
  @mkStore noRowEnv
    [[("name", JsString "net"); ("maxEmployees", JsNumber 5)];
     [("hasEquity", JsBoolean false)];
     [("handle", JsString "c1"); ("name", JsString "C1")];
     [("name", JsString "net")]]
    tt [].

(** The literal [{ b: 1, 2: 2, 1: 3 }] at address 0 and the empty table
    at address 1. *)
Definition reorderStore : @Store noRowEnv :=
  @mkStore noRowEnv
    [object_of [("b", JsNumber 1); ("2", JsNumber 2); ("1", JsNumber 3)]; []]
    tt [].


(** ** What a call may do to the store *)

Section Footprint.
Context `{Environment}.

(** A computation that, from every store, leaves every object of the heap
    where and as it was, adding objects at the end only, and sends at most
    [n] statements, after those already sent. *)
Definition footprint {A} (m : M A) (n : nat) : Prop :=
  ∀ σ : Store, ∃ objs qs,
    heap (m σ).2 = heap σ ++ objs
    ∧ issued (m σ).2 = issued σ ++ qs
    ∧ (length qs ≤ n)%nat.

End Footprint.

(** ** Plain objects *)

Lemma own_keys_length (o : JsObject) : length (own_keys o) = length o.
Proof. apply length_fmap. Qed.

Lemma own_values_length (o : JsObject) : length (own_values o) = length o.
Proof. apply length_fmap. Qed.

Lemma own_property_head k v (rest : JsObject) :
  own_property ((k, v) :: rest) k = Some v.
Proof. simpl. now rewrite String.eqb_refl. Qed.

Lemma own_property_tail k k' v (rest : JsObject) :
  k' ≠ k → own_property ((k', v) :: rest) k = own_property rest k.
Proof.
  intros Hne. simpl.
  destruct (String.eqb_spec k' k) as [Heq | _]; [contradiction | reflexivity].
Qed.

(** A name that is not a key of the object reads as no property. *)
Lemma own_property_absent (o : JsObject) k :
  k ∉ own_keys o → own_property o k = None.
Proof.
  induction o as [| [k' v] rest IH]; intros Hk; [reflexivity |].
  unfold own_keys in Hk. rewrite fmap_cons, not_elem_of_cons in Hk.
  destruct Hk as [Hne Hrest].
  rewrite own_property_tail by (intros ->; now apply Hne). now apply IH.
Qed.

(** In a well-formed object the property at position [i] is the one its
    key reads. *)
Lemma own_property_lookup (o : JsObject) i k v :
  wf_object o → o !! i = Some (k, v) → own_property o k = Some v.
Proof.
  unfold wf_object, own_keys.
  revert i. induction o as [| [k' v'] rest IH]; intros i Hwf Hi; [done |].
  rewrite fmap_cons, NoDup_cons in Hwf. destruct Hwf as [Hfresh Hwf].
  destruct i as [| i]; simpl in Hi.
  - injection Hi as -> ->. apply own_property_head.
  - rewrite own_property_tail; [now apply (IH i) |].
    intros ->. apply Hfresh.
    apply list_elem_of_lookup. exists i.
    rewrite list_lookup_fmap, Hi. reflexivity.
Qed.

(** Reading every key of a well-formed object, in order, gives its
    values, in order. *)
Lemma get_property_own_keys (proto o : JsObject) :
  wf_object o → get_property proto o <$> own_keys o = own_values o.
Proof.
  intros Hwf. apply list_eq. intros i.
  unfold own_keys, own_values.
  rewrite !list_lookup_fmap.
  destruct (o !! i) as [[k v] |] eqn:Hi; simpl; [| reflexivity].
  unfold get_property. now rewrite (own_property_lookup o i k v).
Qed.

(** ** Creation order and enumeration order *)

Lemma own_property_not_key (o : JsObject) k :
  own_property o k = None → k ∉ own_keys o.
Proof.
  induction o as [| [k' v] rest IH]; intros Hk; [apply not_elem_of_nil |].
  cbn in Hk. destruct (String.eqb_spec k' k) as [-> | Hne]; [discriminate |].
  unfold own_keys. rewrite fmap_cons, not_elem_of_cons.
  split; [intros ->; now apply Hne | now apply IH].
Qed.

Lemma own_keys_set_own (o : JsObject) k v :
  own_keys (set_own o k v) = own_keys o.
Proof.
  induction o as [| [k' v'] rest IH]; [reflexivity |].
  cbn [set_own]. destruct (String.eqb k' k); [reflexivity |].
  unfold own_keys in *. rewrite !fmap_cons. now rewrite IH.
Qed.

Lemma own_keys_insert_index n (o : JsObject) k v :
  own_keys (insert_index n k v o) ≡ₚ k :: own_keys o.
Proof.
  induction o as [| [k' v'] rest IH]; [reflexivity |].
  cbn [insert_index]. destruct (array_index k') as [n' |]; [| reflexivity].
  destruct (n' <? n)%N; [| reflexivity].
  unfold own_keys in *. rewrite !fmap_cons, IH. apply Permutation_swap.
Qed.

(** Assigning to a property keeps the keys distinct. *)
Lemma wf_define_property (o : JsObject) k v :
  wf_object o → wf_object (define_property o k v).
Proof.
  unfold wf_object, define_property. intros Hwf.
  destruct (own_property o k) eqn:Hk.
  - now rewrite own_keys_set_own.
  - apply own_property_not_key in Hk.
    destruct (array_index k) as [n |].
    + rewrite own_keys_insert_index. now apply NoDup_cons.
    + unfold own_keys in *. rewrite fmap_app. cbn [fmap list_fmap fst].
      apply NoDup_app. split; [exact Hwf |]. split.
      * intros k' Hin Hk'. apply list_elem_of_singleton in Hk'. now subst.
      * apply NoDup_singleton.
Qed.

Lemma wf_fold_define_property (entries : list (string * JsValue)) (o : JsObject) :
  wf_object o →
  wf_object (fold_left (λ o kv, define_property o kv.1 kv.2) entries o).
Proof.
  revert o. induction entries as [| [k v] rest IH]; intros o Hwf; [exact Hwf |].
  cbn [fold_left]. apply IH. now apply wf_define_property.
Qed.

(** What a literal builds is an object. *)
Lemma wf_object_of (entries : list (string * JsValue)) :
  wf_object (object_of entries).
Proof. apply wf_fold_define_property. apply NoDup_nil_2. Qed.

Lemma define_property_not_nil (o : JsObject) k v : define_property o k v ≠ [].
Proof.
  unfold define_property. destruct (own_property o k) eqn:Hk.
  - destruct o as [| [k' v'] rest]; [discriminate |].
    cbn [set_own]. now destruct (String.eqb k' k).
  - destruct (array_index k) as [n |].
    + destruct o as [| [k' v'] rest]; [discriminate |].
      cbn [insert_index]. destruct (array_index k'); [| discriminate].
      now destruct (_ <? _)%N.
    + now destruct o.
Qed.

Lemma fold_define_property_not_nil (entries : list (string * JsValue))
    (o : JsObject) :
  o ≠ [] → fold_left (λ o kv, define_property o kv.1 kv.2) entries o ≠ [].
Proof.
  revert o. induction entries as [| [k v] rest IH]; intros o Ho; [exact Ho |].
  cbn [fold_left]. apply IH. apply define_property_not_nil.
Qed.

Lemma object_of_not_nil (entries : list (string * JsValue)) :
  entries ≠ [] → object_of entries ≠ [].
Proof.
  destruct entries as [| [k v] rest]; [contradiction |]. intros _.
  unfold object_of. cbn [fold_left].
  apply fold_define_property_not_nil, define_property_not_nil.
Qed.

(** A new key that is no array index goes to the end. *)
Lemma define_property_new (o : JsObject) k v :
  own_property o k = None → array_index k = None →
  define_property o k v = o ++ [(k, v)].
Proof. intros Hk Hi. unfold define_property. now rewrite Hk, Hi. Qed.

Lemma fold_define_property_new (entries : list (string * JsValue))
    (o : JsObject) :
  (∀ kv, kv ∈ entries → array_index kv.1 = None) →
  NoDup (own_keys (o ++ entries)) →
  fold_left (λ o kv, define_property o kv.1 kv.2) entries o = o ++ entries.
Proof.
  revert o. induction entries as [| [k v] rest IH]; intros o Hi Hnd.
  - now rewrite app_nil_r.
  - cbn [fold_left fst snd].
    rewrite define_property_new.
    + rewrite IH.
      * now rewrite <- app_assoc.
      * intros kv Hkv. apply Hi. now apply list_elem_of_further.
      * now rewrite <- app_assoc.
    + apply own_property_absent. unfold own_keys in *.
      rewrite fmap_app, fmap_cons in Hnd. apply NoDup_app in Hnd as (_ & Hd & _).
      intros Hin. apply (Hd k Hin). apply list_elem_of_here.
    + apply (Hi (k, v)). apply list_elem_of_here.
Qed.

(** With distinct keys none of which is an array index, the enumeration
    is the order of creation. *)
Lemma object_of_creation_order (entries : list (string * JsValue)) :
  (∀ kv, kv ∈ entries → array_index kv.1 = None) →
  NoDup (own_keys entries) → object_of entries = entries.
Proof.
  intros Hi Hnd. unfold object_of.
  now rewrite fold_define_property_new.
Qed.

(** ** Running the monad *)

Section MonadFacts.
Context `{Environment}.

Lemma bind_inr {A B} (m : M A) (f : A → M B) (σ σ' : Store) x :
  m σ = (inr x, σ') → bind m f σ = f x σ'.
Proof. intros Hm. unfold bind. now rewrite Hm. Qed.

Lemma bind_inl {A B} (m : M A) (f : A → M B) (σ σ' : Store) e :
  m σ = (inl e, σ') → bind m f σ = (inl e, σ').
Proof. intros Hm. unfold bind. now rewrite Hm. Qed.

Lemma deref_object (σ : Store) o obj :
  heap σ !! o = Some obj → deref o σ = (inr obj, σ).
Proof. intros Ho. unfold deref. now rewrite Ho. Qed.

Lemma deref_non_object (σ : Store) o :
  heap σ !! o = None → deref o σ = (inl TypeError, σ).
Proof. intros Ho. unfold deref. now rewrite Ho. Qed.

Lemma Object_keys_object (σ : Store) o obj :
  heap σ !! o = Some obj → Object_keys o σ = (inr (own_keys obj), σ).
Proof.
  intros Ho. unfold Object_keys.
  now rewrite (bind_inr _ _ σ σ obj (deref_object σ o obj Ho)).
Qed.

Lemma Object_keys_non_object (σ : Store) o :
  heap σ !! o = None → Object_keys o σ = (inl TypeError, σ).
Proof.
  intros Ho. unfold Object_keys.
  now rewrite (bind_inl _ _ σ σ TypeError (deref_non_object σ o Ho)).
Qed.

Lemma Object_values_object (σ : Store) o obj :
  heap σ !! o = Some obj → Object_values o σ = (inr (own_values obj), σ).
Proof.
  intros Ho. unfold Object_values.
  now rewrite (bind_inr _ _ σ σ obj (deref_object σ o obj Ho)).
Qed.

Lemma Get_object (σ : Store) o obj k :
  heap σ !! o = Some obj →
  Get o k σ = (inr (get_property objectPrototype obj k), σ).
Proof.
  intros Ho. unfold Get.
  now rewrite (bind_inr _ _ σ σ obj (deref_object σ o obj Ho)).
Qed.

Lemma Get_non_object (σ : Store) o k :
  heap σ !! o = None → Get o k σ = (inl TypeError, σ).
Proof.
  intros Ho. unfold Get.
  now rewrite (bind_inl _ _ σ σ TypeError (deref_non_object σ o Ho)).
Qed.

End MonadFacts.

(** ** The compiler, run *)

Section SqlFacts.
Context `{Environment}.

(** The assignment terms for a list of keys against a table: the
    template literal at every key, numbered from [idx]. *)
Lemma Array_map_from_terms (σ : Store) t tbl (keys : list string) idx :
  heap σ !! t = Some tbl →
  Array_map_from (λ colName idx,
                    let* c := Get t colName in
                    ret (colTemplate c colName idx)) idx keys σ
  = (inr (imap (λ j k, colTemplate (get_property objectPrototype tbl k) k
                         (idx + j)) keys), σ).
Proof.
  intros Ht. revert idx.
  induction keys as [| k rest IH]; intros idx; [reflexivity |].
  cbn [Array_map_from].
  rewrite (bind_inr _ _ σ σ
             (colTemplate (get_property objectPrototype tbl k) k idx)).
  2: { now rewrite (bind_inr _ _ σ σ _ (Get_object σ t tbl k Ht)). }
  rewrite (bind_inr _ _ σ σ _ (IH (S idx))).
  unfold ret. cbn [imap]. rewrite Nat.add_0_r. do 3 f_equal.
  apply imap_ext. intros j x _. cbn. f_equal. lia.
Qed.

(** A table that is [undefined] or [null]: the first property read
    throws. *)
Lemma Array_map_from_no_table (σ : Store) t (k : string) rest idx :
  heap σ !! t = None →
  Array_map_from (λ colName idx,
                    let* c := Get t colName in
                    ret (colTemplate c colName idx)) idx (k :: rest) σ
  = (inl TypeError, σ).
Proof.
  intros Ht. cbn [Array_map_from].
  apply bind_inl.
  now rewrite (bind_inl _ _ σ σ _ (Get_non_object σ t k Ht)).
Qed.

(** The success path, in closed form. *)
Lemma sqlForPartialUpdate_ok (σ : Store) d t payload tbl :
  heap σ !! d = Some payload → heap σ !! t = Some tbl → payload ≠ [] →
  sqlForPartialUpdate d t σ
  = (inr {| setCols :=
              Array_join
                (imap (λ i k,
                         colTemplate (get_property objectPrototype tbl k) k i)
                      (own_keys payload)) ", ";
            values := own_values payload |}, σ).
Proof.
  intros Hd Ht Hne. unfold sqlForPartialUpdate.
  rewrite (bind_inr _ _ σ σ _ (Object_keys_object σ d payload Hd)).
  destruct payload as [| kv rest]; [contradiction |].
  cbn [own_keys fmap list_fmap length Nat.eqb]. unfold Array_map.
  rewrite (bind_inr _ _ σ σ _ (Array_map_from_terms σ t tbl _ 0 Ht)).
  now rewrite (bind_inr _ _ σ σ _ (Object_values_object σ d _ Hd)).
Qed.

(** The failure path. *)
Lemma sqlForPartialUpdate_no_data (σ : Store) d t :
  heap σ !! d = Some [] →
  sqlForPartialUpdate d t σ = (inl (BadRequestError "No data"), σ).
Proof.
  intros Hd. unfold sqlForPartialUpdate.
  now rewrite (bind_inr _ _ σ σ _ (Object_keys_object σ d [] Hd)).
Qed.

(** A payload that is [undefined] or [null]. *)
Lemma sqlForPartialUpdate_no_payload (σ : Store) d t :
  heap σ !! d = None → sqlForPartialUpdate d t σ = (inl TypeError, σ).
Proof.
  intros Hd. unfold sqlForPartialUpdate.
  apply bind_inl. now apply Object_keys_non_object.
Qed.

(** A table that is [undefined] or [null], under a payload with a key. *)
Lemma sqlForPartialUpdate_no_table (σ : Store) d t payload :
  heap σ !! d = Some payload → heap σ !! t = None → payload ≠ [] →
  sqlForPartialUpdate d t σ = (inl TypeError, σ).
Proof.
  intros Hd Ht Hne. unfold sqlForPartialUpdate.
  rewrite (bind_inr _ _ σ σ _ (Object_keys_object σ d payload Hd)).
  destruct payload as [| kv rest]; [contradiction |].
  cbn [own_keys fmap list_fmap length Nat.eqb]. unfold Array_map.
  apply bind_inl. now apply Array_map_from_no_table.
Qed.

(** No path writes to the store. *)
Lemma sqlForPartialUpdate_store (σ : Store) d t :
  (sqlForPartialUpdate d t σ).2 = σ.
Proof.
  destruct (heap σ !! d) as [payload |] eqn:Hd.
  - destruct payload as [| kv rest].
    + now rewrite sqlForPartialUpdate_no_data.
    + destruct (heap σ !! t) as [tbl |] eqn:Ht.
      * now rewrite (sqlForPartialUpdate_ok σ d t (kv :: rest) tbl).
      * now rewrite (sqlForPartialUpdate_no_table σ d t (kv :: rest)).
  - now rewrite sqlForPartialUpdate_no_payload.
Qed.

End SqlFacts.

(** ** Column names *)

Lemma columnName_mapped c k :
  c ≠ EmptyString → columnName (JsString c) k = c.
Proof.
  intros Hc. unfold columnName, JsOr. cbn [ToBoolean].
  destruct (String.eqb_spec c EmptyString) as [-> | _];
    [contradiction | reflexivity].
Qed.

Lemma columnName_empty k : columnName (JsString EmptyString) k = k.
Proof. reflexivity. Qed.

Lemma columnName_undefined k : columnName JsUndefined k = k.
Proof. reflexivity. Qed.

Lemma get_property_own (proto o : JsObject) k v :
  own_property o k = Some v → get_property proto o k = v.
Proof. intros Hk. unfold get_property. now rewrite Hk. Qed.

Lemma get_property_absent (proto o : JsObject) k :
  own_property o k = None → own_property proto k = None →
  get_property proto o k = JsUndefined.
Proof. intros Hk Hp. unfold get_property. now rewrite Hk, Hp. Qed.

(** ** The callers, run *)

Section UpdateFacts.
Context `{Environment}.

(** The store once the table literal is allocated. *)
Lemma alloc_run (σ : Store) (obj : JsObject) :
  alloc obj σ
  = (inr (length (heap σ)),
     {| heap := heap σ ++ [obj]; db := db σ; issued := issued σ |}).
Proof. reflexivity. Qed.

(** The compiler under a freshly allocated table. *)
Lemma sqlForPartialUpdate_fresh_table
    (σ : Store) data (payload tbl : JsObject) :
  heap σ !! data = Some payload → payload ≠ [] →
  sqlForPartialUpdate data (length (heap σ))
    {| heap := heap σ ++ [tbl]; db := db σ; issued := issued σ |}
  = (inr {| setCols :=
              Array_join
                (imap (λ i k,
                         colTemplate (get_property objectPrototype tbl k) k i)
                      (own_keys payload)) ", ";
            values := own_values payload |},
     {| heap := heap σ ++ [tbl]; db := db σ; issued := issued σ |}).
Proof.
  intros Hd Hne. apply sqlForPartialUpdate_ok; [| | exact Hne]; cbn.
  - now apply lookup_app_l_Some.
  - now apply list_lookup_middle.
Qed.

Lemma sqlForPartialUpdate_fresh_table_no_data
    (σ : Store) data (tbl : JsObject) :
  heap σ !! data = Some [] →
  sqlForPartialUpdate data (length (heap σ))
    {| heap := heap σ ++ [tbl]; db := db σ; issued := issued σ |}
  = (inl (BadRequestError "No data"),
     {| heap := heap σ ++ [tbl]; db := db σ; issued := issued σ |}).
Proof.
  intros Hd. apply sqlForPartialUpdate_no_data. cbn.
  now apply lookup_app_l_Some.
Qed.

(** Whatever the database answers, [query] records the statement. *)
Lemma query_issued (σ : Store) q :
  issued (query q σ).2 = issued σ ++ [q] ∧ heap (query q σ).2 = heap σ.
Proof. unfold query. now destruct (db_query q (db σ)). Qed.

End UpdateFacts.

(** Runs an [update] up to its [db.query]: the table literal, then the
    compiler on a payload known to the context. *)
Ltac run_update σ :=
  rewrite (bind_inr _ _ σ _ _ (alloc_run σ _)); cbv beta;
  first
    [ erewrite bind_inr;
        [| eapply sqlForPartialUpdate_fresh_table; eassumption]
    | erewrite bind_inl;
        [| eapply sqlForPartialUpdate_fresh_table_no_data; eassumption] ].

Section UpdateRuns.
Context `{Environment}.

Lemma Company_update_issued (σ : Store) handle data (payload : JsObject) :
  heap σ !! data = Some payload → payload ≠ [] →
  issued (Company.update handle data σ).2
  = issued σ
    ++ [{| text :=
             Company.querySql
               (Array_join
                  (imap (λ i k,
                           colTemplate
                             (get_property objectPrototype Company.jsToSql k)
                             k i)
                        (own_keys payload)) ", ")
               ("$" +:+ pretty (length (own_values payload) + 1));
           params := own_values payload ++ [handle] |}].
Proof.
  intros Hd Hne. unfold Company.update. run_update σ.
  cbn [setCols values]. unfold bind.
  match goal with |- context [query ?q ?s] =>
    pose proof (query_issued s q) as [Hq _];
    destruct (query q s) as [[e | rows] σ']
  end; cbn in Hq |- *; [exact Hq |].
  destruct rows; exact Hq.
Qed.

Lemma Job_update_issued (σ : Store) id data (payload : JsObject) :
  heap σ !! data = Some payload → payload ≠ [] →
  issued (Job.update id data σ).2
  = issued σ
    ++ [{| text :=
             Job.querySql
               (Array_join
                  (imap (λ i k,
                           colTemplate
                             (get_property objectPrototype Job.jsToSql k) k i)
                        (own_keys payload)) ", ")
               ("$" +:+ pretty (length (own_values payload) + 1));
           params := own_values payload ++ [id] |}].
Proof.
  intros Hd Hne. unfold Job.update. run_update σ.
  cbn [setCols values]. unfold bind.
  match goal with |- context [query ?q ?s] =>
    pose proof (query_issued s q) as [Hq _];
    destruct (query q s) as [[e | rows] σ']
  end; cbn in Hq |- *; [exact Hq |].
  destruct rows; exact Hq.
Qed.

Lemma Company_update_no_data (σ : Store) handle data :
  heap σ !! data = Some [] →
  Company.update handle data σ
  = (inl (BadRequestError "No data"),
     {| heap := heap σ ++ [Company.jsToSql];
        db := db σ; issued := issued σ |}).
Proof. intros Hd. unfold Company.update. run_update σ. reflexivity. Qed.

Lemma Job_update_no_data (σ : Store) id data :
  heap σ !! data = Some [] →
  Job.update id data σ
  = (inl (BadRequestError "No data"),
     {| heap := heap σ ++ [Job.jsToSql]; db := db σ; issued := issued σ |}).
Proof. intros Hd. unfold Job.update. run_update σ. reflexivity. Qed.

End UpdateRuns.

(** ** Reading a term back *)






(** ** The documented examples and the tests *)

(** The example heading [helpers/sql.js], which is also the test
    "Multiple fields test". *)
Example multiple_fields_test :
  sqlForPartialUpdate 0 1 aliyaStore
  = (inr {| setCols := dq +:+ "first_name" +:+ dq +:+ "=$1, "
                       +:+ dq +:+ "age" +:+ dq +:+ "=$2";
            values := [JsString "Aliya"; JsNumber 32] |}, aliyaStore).
Proof. vm_compute. reflexivity. Qed.

(** The test "throws error if no data": both arguments the empty object. *)
Example throws_error_if_no_data :
  sqlForPartialUpdate 2 2 aliyaStore
  = (inl (BadRequestError "No data"), aliyaStore).
Proof. vm_compute. reflexivity. Qed.

(** Null fields, as the job tests update them: values may be [null]. *)
Example null_fields :
  sqlForPartialUpdate 0 2 jobStore
  = (inr {| setCols := dq +:+ "equity" +:+ dq +:+ "=$1, "
                       +:+ dq +:+ "company_handle" +:+ dq +:+ "=$2";
            values := [JsNull; JsNull] |}, jobStore).
Proof. vm_compute. reflexivity. Qed.

(** The job test "bad request with no data". *)
Example Job_update_bad_request :
  (Job.update (JsString "j1") 2 aliyaStore).1
  = inl (BadRequestError "No data").
Proof. vm_compute. reflexivity. Qed.

(** A statement as [Job.update] sends it, here to a database that
    answers with its one row. *)
Example Job_update_works :
  (Job.update (JsString "j1") 1 jobStore).1 = inr [("id", JsString "j1")]
  ∧ params <$> issued (Job.update (JsString "j1") 1 jobStore).2
    = [[JsNumber 3; JsString "berkshire"; JsString "j1"]].
Proof. vm_compute. split; reflexivity. Qed.

(** No row: [NotFoundError]. *)
Example Company_update_not_found :
  (Company.update (JsString "nope") 0 aliyaStore).1
  = inl (NotFoundError "No company: nope").
Proof. vm_compute. reflexivity. Qed.

(** A key that names a property every object inherits: the table has no
    entry for it, and the read finds the inherited value. *)
Example inherited_name :
  (sqlForPartialUpdate 0 1
     (@mkStore noRowEnv [[("toString", JsNumber 1)]; []] tt [])).1
  = inr {| setCols := dq +:+ "function toString() { [native code] }"
                      +:+ dq +:+ "=$1";
           values := [JsNumber 1] |}.
Proof. vm_compute. reflexivity. Qed.

(** ** The partial-update contract *)

(** C1 (ordering), as the code has it. For a non-empty payload, built
    from properties written in the order [entries], whose keys are
    [k1 .. kn] in the order [Object.keys] enumerates them, the call
    succeeds; its values are [payload[k1], ..., payload[kn]], as many as
    there are keys and in their order, and its clause is the terms joined by
    [", "], the term at position [i] (from 0) being the one of key [k(i+1)]
    with the placeholder [$(i+1)]: the i-th value is the one of the i-th
    placeholder. That order is the order in which the properties were
    written when their keys are distinct and none is an array index. *)
Theorem sqlForPartialUpdate_ordering `{Environment}
    (σ : Store) d t (entries : list (string * JsValue)) (tbl : JsObject) :
  heap σ !! d = Some (object_of entries) → heap σ !! t = Some tbl →
  entries ≠ [] →
  ∃ cols vals,
    sqlForPartialUpdate d t σ
    = (inr {| setCols := Array_join cols ", "; values := vals |}, σ)
    ∧ vals = (get_property objectPrototype (object_of entries)
              <$> own_keys (object_of entries))
    ∧ length vals = length (own_keys (object_of entries))
    ∧ length cols = length (own_keys (object_of entries))
    ∧ (∀ i k, own_keys (object_of entries) !! i = Some k →
        vals !! i = Some (get_property objectPrototype (object_of entries) k)
        ∧ cols !! i
          = Some (dq +:+ columnName (get_property objectPrototype tbl k) k
                  +:+ dq +:+ "=$" +:+ pretty (i + 1)))
    ∧ ((∀ kv, kv ∈ entries → array_index kv.1 = None) →
       NoDup (own_keys entries) →
       own_keys (object_of entries) = own_keys entries).
Proof.
  intros Hd Ht Hne.
  pose proof (wf_object_of entries) as Hwf.
  pose proof (object_of_not_nil entries Hne) as Hne'.
  eexists _, _.
  split; [now apply (sqlForPartialUpdate_ok σ d t (object_of entries) tbl) |].
  rewrite length_imap, own_values_length, own_keys_length.
  rewrite <- (get_property_own_keys objectPrototype (object_of entries) Hwf).
  split; [reflexivity |]. split; [reflexivity |]. split; [reflexivity |].
  split.
  - intros i k Hk. split.
    + rewrite list_lookup_fmap. now rewrite Hk.
    + rewrite list_lookup_imap. now rewrite Hk.
  - intros Hi Hnd. now rewrite object_of_creation_order.
Qed.

Lemma sqlForPartialUpdate_ordering_witness :
  ∃ cols vals,
    sqlForPartialUpdate 0 1 aliyaStore
    = (inr {| setCols := Array_join cols ", "; values := vals |}, aliyaStore)
    ∧ vals
      = (get_property nodePrototype
           (object_of [("firstName", JsString "Aliya"); ("age", JsNumber 32)])
         <$> own_keys
               (object_of
                  [("firstName", JsString "Aliya"); ("age", JsNumber 32)]))
    ∧ length vals
      = length
          (own_keys
             (object_of
                [("firstName", JsString "Aliya"); ("age", JsNumber 32)]))
    ∧ length cols
      = length
          (own_keys
             (object_of
                [("firstName", JsString "Aliya"); ("age", JsNumber 32)]))
    ∧ (∀ i k,
        own_keys
          (object_of [("firstName", JsString "Aliya"); ("age", JsNumber 32)])
        !! i = Some k →
        vals !! i
        = Some (get_property nodePrototype
                  (object_of
                     [("firstName", JsString "Aliya"); ("age", JsNumber 32)])
                  k)
        ∧ cols !! i
          = Some (dq +:+ columnName
                           (get_property nodePrototype
                              [("firstName", JsString "first_name")] k)
                           k
                  +:+ dq +:+ "=$" +:+ pretty (i + 1)))
    ∧ ((∀ kv,
          kv ∈ [("firstName", JsString "Aliya"); ("age", JsNumber 32)] →
          array_index kv.1 = None) →
       NoDup (own_keys [("firstName", JsString "Aliya"); ("age", JsNumber 32)]) →
       own_keys
         (object_of [("firstName", JsString "Aliya"); ("age", JsNumber 32)])
       = own_keys [("firstName", JsString "Aliya"); ("age", JsNumber 32)]).
Proof.
  apply (sqlForPartialUpdate_ordering (H := noRowEnv) aliyaStore 0 1
           [("firstName", JsString "Aliya"); ("age", JsNumber 32)]
           [("firstName", JsString "first_name")]).
  - reflexivity.
  - reflexivity.
  - discriminate.
Defined.

(** C1 as stated fails: keys that are array indices. The properties of
    [{ b: 1, 2: 2, 1: 3 }] are written in the order [b], [2], [1]; the
    values come back as [3, 2, 1], not as [payload[b], payload[2],
    payload[1]], and the first placeholder goes to the key [1]. *)
Lemma sqlForPartialUpdate_ordering_counterexample :
  heap reorderStore !! 0
  = Some (object_of [("b", JsNumber 1); ("2", JsNumber 2); ("1", JsNumber 3)])
  ∧ ∃ r,
      sqlForPartialUpdate 0 1 reorderStore = (inr r, reorderStore)
      ∧ values r = [JsNumber 3; JsNumber 2; JsNumber 1]
      ∧ values r
        ≠ (get_property nodePrototype
             (object_of
                [("b", JsNumber 1); ("2", JsNumber 2); ("1", JsNumber 3)])
           <$> ["b"; "2"; "1"])
      ∧ setCols r
        = dq +:+ "1" +:+ dq +:+ "=$1, " +:+ dq +:+ "2" +:+ dq +:+ "=$2, "
          +:+ dq +:+ "b" +:+ dq +:+ "=$3".
Proof.
  split; [reflexivity |].
  eexists. split; [vm_compute; reflexivity |].
  split; [reflexivity |]. split; [| reflexivity].
  vm_compute. discriminate.
Qed.

(** C2 (translation), as the code has it. For a non-empty payload, the
    term of every payload key [k] is ["<column>"=$i], the column wrapped in
    double quotes, where the column is the table's name for [k] when the
    table maps [k] to a non-empty string, and [k] itself when the table
    maps [k] to the empty string or has no entry for [k] (so under the
    empty table), [k] not being a name plain objects inherit. *)
Theorem sqlForPartialUpdate_translation `{Environment}
    (σ : Store) d t (payload tbl : JsObject) :
  heap σ !! d = Some payload → heap σ !! t = Some tbl → payload ≠ [] →
  ∃ cols vals,
    sqlForPartialUpdate d t σ
    = (inr {| setCols := Array_join cols ", "; values := vals |}, σ)
    ∧ ∀ i k, own_keys payload !! i = Some k →
        ∃ column,
          cols !! i = Some (dq +:+ column +:+ dq +:+ "=$" +:+ pretty (i + 1))
          ∧ (∀ c, own_property tbl k = Some (JsString c) → c ≠ EmptyString →
             column = c)
          ∧ (own_property tbl k = Some (JsString EmptyString) → column = k)
          ∧ (own_property tbl k = None →
             own_property objectPrototype k = None → column = k).
Proof.
  intros Hd Ht Hne.
  eexists _, _. split; [now apply (sqlForPartialUpdate_ok σ d t payload tbl) |].
  intros i k Hk. exists (columnName (get_property objectPrototype tbl k) k).
  split; [rewrite list_lookup_imap; now rewrite Hk |].
  split; [| split].
  - intros c Hc Hne'. rewrite (get_property_own _ tbl k _ Hc).
    now apply columnName_mapped.
  - intros Hc. now rewrite (get_property_own _ tbl k _ Hc).
  - intros Hc Hp. now rewrite (get_property_absent _ tbl k Hc Hp).
Qed.

Lemma sqlForPartialUpdate_translation_witness :
  ∃ cols vals,
    sqlForPartialUpdate 0 1 aliyaStore
    = (inr {| setCols := Array_join cols ", "; values := vals |}, aliyaStore)
    ∧ ∀ i k, ["firstName"; "age"] !! i = Some k →
        ∃ column,
          cols !! i = Some (dq +:+ column +:+ dq +:+ "=$" +:+ pretty (i + 1))
          ∧ (∀ c, own_property [("firstName", JsString "first_name")] k
                  = Some (JsString c) → c ≠ EmptyString → column = c)
          ∧ (own_property [("firstName", JsString "first_name")] k
             = Some (JsString EmptyString) → column = k)
          ∧ (own_property [("firstName", JsString "first_name")] k = None →
             own_property nodePrototype k = None → column = k).
Proof.
  apply (sqlForPartialUpdate_translation (H := noRowEnv) aliyaStore 0 1
           [("firstName", JsString "Aliya"); ("age", JsNumber 32)]
           [("firstName", JsString "first_name")]).
  - reflexivity.
  - reflexivity.
  - discriminate.
Defined.

(** C2 as stated fails: a key the table has, mapped to the empty string.
    The table's name for [a] is the empty string, yet the term names the
    column [a]. *)
Lemma sqlForPartialUpdate_translation_counterexample :
  heap emptyNameStore !! 0 = Some [("a", JsNumber 1)]
  ∧ heap emptyNameStore !! 1 = Some [("a", JsString EmptyString)]
  ∧ own_property [("a", JsString EmptyString)] "a"
    = Some (JsString EmptyString)
  ∧ ∃ r, sqlForPartialUpdate 0 1 emptyNameStore = (inr r, emptyNameStore)
         ∧ setCols r = dq +:+ "a" +:+ dq +:+ "=$1"
         ∧ setCols r ≠ dq +:+ EmptyString +:+ dq +:+ "=$1".
Proof.
  repeat split.
  eexists. split; [vm_compute; reflexivity |]. split; [reflexivity |].
  cbn. discriminate.
Qed.

(** C3 (empty-input failure). Whatever the second argument is, a table
    of any contents or no object at all, the call on a payload with no key
    throws [BadRequestError("No data")]: no fragment is returned, the
    table is not read and the store is as before. *)
Theorem sqlForPartialUpdate_empty_payload `{Environment} (σ : Store) d t :
  heap σ !! d = Some [] →
  sqlForPartialUpdate d t σ = (inl (BadRequestError "No data"), σ)
  ∧ ∀ r σ', sqlForPartialUpdate d t σ ≠ (inr r, σ').
Proof.
  intros Hd. rewrite (sqlForPartialUpdate_no_data σ d t Hd).
  split; [reflexivity | discriminate].
Qed.

Lemma sqlForPartialUpdate_empty_payload_witness :
  sqlForPartialUpdate 2 1 aliyaStore
  = (inl (BadRequestError "No data"), aliyaStore)
  ∧ ∀ r σ', sqlForPartialUpdate 2 1 aliyaStore ≠ (inr r, σ').
Proof.
  apply (sqlForPartialUpdate_empty_payload (H := noRowEnv) aliyaStore 2 1).
  reflexivity.
Defined.

(** C4 (values stay out of the clause). Two non-empty payloads with the
    same keys in the same order, whatever their values, compiled against
    the same table, get the same clause; each one's values come back only
    in its values sequence. *)
Theorem sqlForPartialUpdate_clause_ignores_values `{Environment}
    (σ1 σ2 : Store) d1 t1 d2 t2 (p1 p2 tbl : JsObject) :
  heap σ1 !! d1 = Some p1 → heap σ1 !! t1 = Some tbl →
  heap σ2 !! d2 = Some p2 → heap σ2 !! t2 = Some tbl →
  p1 ≠ [] → own_keys p1 = own_keys p2 →
  ∃ clause,
    sqlForPartialUpdate d1 t1 σ1
    = (inr {| setCols := clause; values := own_values p1 |}, σ1)
    ∧ sqlForPartialUpdate d2 t2 σ2
      = (inr {| setCols := clause; values := own_values p2 |}, σ2).
Proof.
  intros Hd1 Ht1 Hd2 Ht2 Hne Hkeys.
  assert (Hne2 : p2 ≠ []).
  { intros ->. destruct p1; [contradiction | discriminate]. }
  eexists. split.
  - now apply (sqlForPartialUpdate_ok σ1 d1 t1 p1 tbl).
  - rewrite Hkeys. now apply (sqlForPartialUpdate_ok σ2 d2 t2 p2 tbl).
Qed.

Lemma sqlForPartialUpdate_clause_ignores_values_witness :
  ∃ clause,
    sqlForPartialUpdate 0 2 jobStore
    = (inr {| setCols := clause; values := [JsNull; JsNull] |}, jobStore)
    ∧ sqlForPartialUpdate 1 2 jobStore
      = (inr {| setCols := clause;
                values := [JsNumber 3; JsString "berkshire"] |}, jobStore).
Proof.
  apply (sqlForPartialUpdate_clause_ignores_values (H := oneRowEnv)
           jobStore jobStore 0 2 1 2
           [("equity", JsNull); ("companyHandle", JsNull)]
           [("equity", JsNumber 3); ("companyHandle", JsString "berkshire")]
           [("companyHandle", JsString "company_handle")]).
  - reflexivity.
  - reflexivity.
  - reflexivity.
  - reflexivity.
  - discriminate.
  - reflexivity.
Defined.

(** C5 (determinism). Two calls, in any two stores and at any addresses,
    whose payload objects are equal (same keys, same order, same values)
    and whose table objects are equal, return the same result: the same
    clause and the same values when the payload has a key, the same error
    when it has none. *)
Theorem sqlForPartialUpdate_deterministic `{Environment}
    (σ1 σ2 : Store) d1 t1 d2 t2 (payload tbl : JsObject) :
  heap σ1 !! d1 = Some payload → heap σ1 !! t1 = Some tbl →
  heap σ2 !! d2 = Some payload → heap σ2 !! t2 = Some tbl →
  (sqlForPartialUpdate d1 t1 σ1).1 = (sqlForPartialUpdate d2 t2 σ2).1.
Proof.
  intros Hd1 Ht1 Hd2 Ht2.
  destruct payload as [| kv rest].
  - now rewrite !sqlForPartialUpdate_no_data.
  - rewrite (sqlForPartialUpdate_ok σ1 d1 t1 (kv :: rest) tbl) by done.
    now rewrite (sqlForPartialUpdate_ok σ2 d2 t2 (kv :: rest) tbl).
Qed.

Lemma sqlForPartialUpdate_deterministic_witness :
  (sqlForPartialUpdate 0 1 aliyaStore).1
  = (sqlForPartialUpdate 0 1 (sqlForPartialUpdate 0 1 aliyaStore).2).1.
Proof.
  apply (sqlForPartialUpdate_deterministic (H := noRowEnv)
           aliyaStore (sqlForPartialUpdate 0 1 aliyaStore).2 0 1 0 1
           [("firstName", JsString "Aliya"); ("age", JsNumber 32)]
           [("firstName", JsString "first_name")]);
    reflexivity.
Defined.

(** C8 (frame). On every input, also one on which it throws, the call
    returns the store it was given: the heap, and so both of its arguments,
    key for key and value for value, the database, and the list of
    statements sent to it. *)
Theorem sqlForPartialUpdate_pure `{Environment} (σ : Store) d t :
  (sqlForPartialUpdate d t σ).2 = σ
  ∧ heap (sqlForPartialUpdate d t σ).2 !! d = heap σ !! d
  ∧ heap (sqlForPartialUpdate d t σ).2 !! t = heap σ !! t
  ∧ db (sqlForPartialUpdate d t σ).2 = db σ
  ∧ issued (sqlForPartialUpdate d t σ).2 = issued σ.
Proof. rewrite sqlForPartialUpdate_store. repeat split. Qed.

(** C9 (table entries outside the payload). Two tables that give the
    same answer at every key of the payload, however they differ elsewhere,
    give the same result, clause and values. *)
Theorem sqlForPartialUpdate_table_restriction `{Environment}
    (σ1 σ2 : Store) d1 t1 d2 t2 (payload tbl1 tbl2 : JsObject) :
  heap σ1 !! d1 = Some payload → heap σ1 !! t1 = Some tbl1 →
  heap σ2 !! d2 = Some payload → heap σ2 !! t2 = Some tbl2 →
  (∀ k, k ∈ own_keys payload → own_property tbl1 k = own_property tbl2 k) →
  (sqlForPartialUpdate d1 t1 σ1).1 = (sqlForPartialUpdate d2 t2 σ2).1.
Proof.
  intros Hd1 Ht1 Hd2 Ht2 Hagree.
  destruct payload as [| kv rest].
  - now rewrite !sqlForPartialUpdate_no_data.
  - rewrite (sqlForPartialUpdate_ok σ1 d1 t1 (kv :: rest) tbl1) by done.
    rewrite (sqlForPartialUpdate_ok σ2 d2 t2 (kv :: rest) tbl2) by done.
    cbn [fst]. do 3 f_equal.
    apply imap_ext. intros i k Hk. unfold get_property.
    rewrite Hagree; [reflexivity |].
    apply list_elem_of_lookup. now exists i.
Qed.

Lemma sqlForPartialUpdate_table_restriction_witness :
  (sqlForPartialUpdate 0 2 jobStore).1 = (sqlForPartialUpdate 0 3 jobStore).1.
Proof.
  apply (sqlForPartialUpdate_table_restriction (H := oneRowEnv)
           jobStore jobStore 0 2 0 3
           [("equity", JsNull); ("companyHandle", JsNull)]
           [("companyHandle", JsString "company_handle")]
           [("title", JsString "job_title");
            ("companyHandle", JsString "company_handle")]);
    try reflexivity.
  intros k Hk.
  apply list_elem_of_In in Hk. cbn in Hk.
  destruct Hk as [<- | [<- | []]]; reflexivity.
Defined.

(** C6 (the callers' statement). For a payload of [n] keys,
    [Company.update] and [Job.update] send one statement: the compiler's
    clause (compiled against the module's own table) after [SET], the
    placeholder [$(n+1)] in the primary-key predicate ([WHERE handle =],
    [WHERE id =]), and as parameters the compiler's [n] values, in order,
    followed by the key value, which is thus the (n+1)-th. *)
Theorem update_key_placeholder `{Environment}
    (σ : Store) key data (payload : JsObject) :
  heap σ !! data = Some payload → payload ≠ [] →
  let n := length (own_keys payload) in
  (∃ r σt q,
      heap σt = heap σ ++ [Company.jsToSql]
      ∧ sqlForPartialUpdate data (length (heap σ)) σt = (inr r, σt)
      ∧ values r = own_values payload ∧ length (values r) = n
      ∧ issued (Company.update key data σ).2 = issued σ ++ [q]
      ∧ text q = Company.querySql (setCols r) ("$" +:+ pretty (n + 1))
      ∧ params q = values r ++ [key]
      ∧ params q !! n = Some key ∧ length (params q) = n + 1)
  ∧ (∃ r σt q,
      heap σt = heap σ ++ [Job.jsToSql]
      ∧ sqlForPartialUpdate data (length (heap σ)) σt = (inr r, σt)
      ∧ values r = own_values payload ∧ length (values r) = n
      ∧ issued (Job.update key data σ).2 = issued σ ++ [q]
      ∧ text q = Job.querySql (setCols r) ("$" +:+ pretty (n + 1))
      ∧ params q = values r ++ [key]
      ∧ params q !! n = Some key ∧ length (params q) = n + 1)
  ∧ (∃ tail, ∀ clause placeholder,
      Company.querySql clause placeholder
      = "UPDATE companies " +:+ nl +:+
        "                      SET " +:+ clause +:+ " " +:+ nl +:+
        "                      WHERE handle = " +:+ placeholder +:+ tail)
  ∧ (∃ tail, ∀ clause placeholder,
      Job.querySql clause placeholder
      = "UPDATE jobs " +:+ nl +:+
        "                      SET " +:+ clause +:+ " " +:+ nl +:+
        "                      WHERE id = " +:+ placeholder +:+ tail).
Proof.
  intros Hd Hne n.
  assert (Hn : length (own_values payload) = n).
  { subst n. now rewrite own_values_length, own_keys_length. }
  split; [| split; [| split]].
  - eexists _, {| heap := heap σ ++ [Company.jsToSql];
                  db := db σ; issued := issued σ |}, _.
    split; [reflexivity |].
    split; [exact (sqlForPartialUpdate_fresh_table σ data payload _ Hd Hne) |].
    cbn [setCols values].
    split; [reflexivity |]. split; [exact Hn |].
    split; [exact (Company_update_issued σ key data payload Hd Hne) |].
    cbn [text params]. rewrite Hn.
    split; [reflexivity |]. split; [reflexivity |].
    split; [now apply list_lookup_middle |].
    rewrite length_app, Hn. reflexivity.
  - eexists _, {| heap := heap σ ++ [Job.jsToSql];
                  db := db σ; issued := issued σ |}, _.
    split; [reflexivity |].
    split; [exact (sqlForPartialUpdate_fresh_table σ data payload _ Hd Hne) |].
    cbn [setCols values].
    split; [reflexivity |]. split; [exact Hn |].
    split; [exact (Job_update_issued σ key data payload Hd Hne) |].
    cbn [text params]. rewrite Hn.
    split; [reflexivity |]. split; [reflexivity |].
    split; [now apply list_lookup_middle |].
    rewrite length_app, Hn. reflexivity.
  - eexists. intros clause placeholder. reflexivity.
  - eexists. intros clause placeholder. reflexivity.
Qed.

Lemma update_key_placeholder_witness :
  (∃ r (σt : @Store oneRowEnv) q,
      heap σt = heap jobStore ++ [Company.jsToSql]
      ∧ sqlForPartialUpdate 1 (length (heap jobStore)) σt = (inr r, σt)
      ∧ values r = [JsNumber 3; JsString "berkshire"] ∧ length (values r) = 2
      ∧ issued (Company.update (JsString "j1") 1 jobStore).2
        = issued jobStore ++ [q]
      ∧ text q = Company.querySql (setCols r) ("$" +:+ pretty (2 + 1))
      ∧ params q = values r ++ [JsString "j1"]
      ∧ params q !! 2 = Some (JsString "j1") ∧ length (params q) = 2 + 1)
  ∧ (∃ r (σt : @Store oneRowEnv) q,
      heap σt = heap jobStore ++ [Job.jsToSql]
      ∧ sqlForPartialUpdate 1 (length (heap jobStore)) σt = (inr r, σt)
      ∧ values r = [JsNumber 3; JsString "berkshire"] ∧ length (values r) = 2
      ∧ issued (Job.update (JsString "j1") 1 jobStore).2
        = issued jobStore ++ [q]
      ∧ text q = Job.querySql (setCols r) ("$" +:+ pretty (2 + 1))
      ∧ params q = values r ++ [JsString "j1"]
      ∧ params q !! 2 = Some (JsString "j1") ∧ length (params q) = 2 + 1)
  ∧ (∃ tail, ∀ clause placeholder,
      Company.querySql clause placeholder
      = "UPDATE companies " +:+ nl +:+
        "                      SET " +:+ clause +:+ " " +:+ nl +:+
        "                      WHERE handle = " +:+ placeholder +:+ tail)
  ∧ (∃ tail, ∀ clause placeholder,
      Job.querySql clause placeholder
      = "UPDATE jobs " +:+ nl +:+
        "                      SET " +:+ clause +:+ " " +:+ nl +:+
        "                      WHERE id = " +:+ placeholder +:+ tail).
Proof.
  apply (update_key_placeholder (H := oneRowEnv) jobStore (JsString "j1") 1
           [("equity", JsNumber 3); ("companyHandle", JsString "berkshire")]).
  - reflexivity.
  - discriminate.
Defined.

(** C7 (the callers on an empty payload). With a payload of no key,
    [Company.update] and [Job.update] end in the compiler's
    [BadRequestError("No data")] itself; the database is as before and no
    statement was sent to it; in the heap, every object is as before, and
    the table literal built for the call is the one new object. *)
Theorem update_no_data `{Environment} (σ : Store) key data :
  heap σ !! data = Some [] →
  (Company.update key data σ
   = (inl (BadRequestError "No data"),
      {| heap := heap σ ++ [Company.jsToSql];
         db := db σ; issued := issued σ |})
   ∧ (sqlForPartialUpdate data (length (heap σ))
        {| heap := heap σ ++ [Company.jsToSql];
           db := db σ; issued := issued σ |}).1
     = inl (BadRequestError "No data"))
  ∧ (Job.update key data σ
     = (inl (BadRequestError "No data"),
        {| heap := heap σ ++ [Job.jsToSql];
           db := db σ; issued := issued σ |})
     ∧ (sqlForPartialUpdate data (length (heap σ))
          {| heap := heap σ ++ [Job.jsToSql];
             db := db σ; issued := issued σ |}).1
       = inl (BadRequestError "No data")).
Proof.
  intros Hd. split; split.
  - now apply Company_update_no_data.
  - now rewrite sqlForPartialUpdate_fresh_table_no_data.
  - now apply Job_update_no_data.
  - now rewrite sqlForPartialUpdate_fresh_table_no_data.
Qed.

Lemma update_no_data_witness :
  (Company.update (JsString "c1") 2 aliyaStore
   = (inl (BadRequestError "No data"),
      {| heap := heap aliyaStore ++ [Company.jsToSql];
         db := db aliyaStore; issued := issued aliyaStore |})
   ∧ (sqlForPartialUpdate 2 (length (heap aliyaStore))
        {| heap := heap aliyaStore ++ [Company.jsToSql];
           db := db aliyaStore; issued := issued aliyaStore |}).1
     = inl (BadRequestError "No data"))
  ∧ (Job.update (JsString "c1") 2 aliyaStore
     = (inl (BadRequestError "No data"),
        {| heap := heap aliyaStore ++ [Job.jsToSql];
           db := db aliyaStore; issued := issued aliyaStore |})
     ∧ (sqlForPartialUpdate 2 (length (heap aliyaStore))
          {| heap := heap aliyaStore ++ [Job.jsToSql];
             db := db aliyaStore; issued := issued aliyaStore |}).1
       = inl (BadRequestError "No data")).
Proof.
  apply (update_no_data (H := noRowEnv) aliyaStore (JsString "c1") 2).
  reflexivity.
Defined.




(** * Beyond the contract: the rest of the three files *)

(** ** More on the compiler *)

Lemma string_app_assoc (s1 s2 s3 : string) :
  (s1 +:+ s2) +:+ s3 = s1 +:+ s2 +:+ s3.
Proof.
  induction s1 as [| c s1 IH]; [reflexivity |].
  change (String c ((s1 +:+ s2) +:+ s3) = String c (s1 +:+ s2 +:+ s3)).
  now rewrite IH.
Qed.

(** Joining one more string onto a non-empty array. *)
Lemma Array_join_snoc (arr : list string) (x sep : string) :
  arr ≠ [] → Array_join (arr ++ [x]) sep = Array_join arr sep +:+ sep +:+ x.
Proof.
  unfold Array_join. induction arr as [| a [| b rest] IH]; intros Hne.
  - contradiction.
  - reflexivity.
  - change (a +:+ sep +:+ String.concat sep ((b :: rest) ++ [x])
            = (a +:+ sep +:+ String.concat sep (b :: rest)) +:+ sep +:+ x).
    rewrite IH by discriminate. now rewrite !string_app_assoc.
Qed.


(** X2 (one more field). Assigning, to a non-empty payload, a property
    it does not have and whose key is no array index adds, against the same
    table, [", "] and the term of the new key, numbered after the others,
    to the clause, and the new value to the values: no earlier term,
    placeholder or value changes. *)
Theorem sqlForPartialUpdate_append `{Environment}
    (σ1 σ2 : Store) d1 t1 d2 t2 (payload tbl : JsObject) k v :
  heap σ1 !! d1 = Some payload → heap σ1 !! t1 = Some tbl →
  heap σ2 !! d2 = Some (define_property payload k v) →
  heap σ2 !! t2 = Some tbl →
  payload ≠ [] → own_property payload k = None → array_index k = None →
  ∃ r,
    sqlForPartialUpdate d1 t1 σ1 = (inr r, σ1)
    ∧ sqlForPartialUpdate d2 t2 σ2
      = (inr {| setCols :=
                  setCols r +:+ ", "
                  +:+ colTemplate (get_property objectPrototype tbl k) k
                        (length payload);
                values := values r ++ [v] |}, σ2).
Proof.
  intros Hd1 Ht1 Hd2 Ht2 Hne Hk Hi.
  rewrite (define_property_new payload k v Hk Hi) in Hd2.
  eexists. split; [now apply (sqlForPartialUpdate_ok σ1 d1 t1 payload tbl) |].
  rewrite (sqlForPartialUpdate_ok σ2 d2 t2 (payload ++ [(k, v)]) tbl);
    [| done | done | now destruct payload].
  cbn [setCols values]. unfold own_keys, own_values.
  rewrite !fmap_app, imap_app. cbn [fmap list_fmap imap fst snd].
  rewrite Array_join_snoc.
  - rewrite length_fmap, Nat.add_0_r. reflexivity.
  - destruct payload; [contradiction | discriminate].
Qed.

Lemma sqlForPartialUpdate_append_witness :
  ∃ r,
    sqlForPartialUpdate 3 2 listingStore = (inr r, listingStore)
    ∧ sqlForPartialUpdate 0 2 listingStore
      = (inr {| setCols :=
                  setCols r +:+ ", "
                  +:+ colTemplate
                        (get_property nodePrototype
                           [("handle", JsString "c1"); ("name", JsString "C1")]
                           "maxEmployees")
                        "maxEmployees" 1;
                values := values r ++ [JsNumber 5] |}, listingStore).
Proof.
  apply (sqlForPartialUpdate_append (H := oneRowEnv)
           listingStore listingStore 3 2 0 2 [("name", JsString "net")]
           [("handle", JsString "c1"); ("name", JsString "C1")]
           "maxEmployees" (JsNumber 5)).
  - reflexivity.
  - reflexivity.
  - reflexivity.
  - reflexivity.
  - discriminate.
  - reflexivity.
  - reflexivity.
Defined.

(** ** Footprints *)

Section FootprintFacts.
Context `{Environment}.

Lemma query_run (σ : Store) q :
  query q σ
  = ((db_query q (db σ)).1,
     {| heap := heap σ; db := (db_query q (db σ)).2;
        issued := issued σ ++ [q] |}).
Proof. unfold query. now destruct (db_query q (db σ)). Qed.

Lemma footprint_weaken {A} (m : M A) n n' :
  (n ≤ n')%nat → footprint m n → footprint m n'.
Proof.
  intros Hle Hm σ. destruct (Hm σ) as (objs & qs & Hh & Hi & Hn).
  exists objs, qs. repeat split; [done | done | lia].
Qed.

Lemma footprint_ret {A} (x : A) : footprint (ret x) 0.
Proof. intros σ. exists [], []. cbn. now rewrite !app_nil_r. Qed.

Lemma footprint_throw {A} e : footprint (throw (A := A) e) 0.
Proof. intros σ. exists [], []. cbn. now rewrite !app_nil_r. Qed.

Lemma footprint_bind {A B} (m : M A) (f : A → M B) n1 n2 :
  footprint m n1 → (∀ x, footprint (f x) n2) → footprint (bind m f) (n1 + n2).
Proof.
  intros Hm Hf σ. destruct (Hm σ) as (objs & qs & Hh & Hi & Hn).
  unfold bind. destruct (m σ) as [[e | x] σ']; cbn in Hh, Hi.
  - exists objs, qs. cbn. repeat split; [done | done | lia].
  - destruct (Hf x σ') as (objs' & qs' & Hh' & Hi' & Hn').
    exists (objs ++ objs'), (qs ++ qs').
    rewrite Hh', Hi', Hh, Hi, !app_assoc, length_app.
    repeat split; lia.
Qed.

Lemma footprint_deref o : footprint (deref o) 0.
Proof.
  intros σ. exists [], []. unfold deref.
  destruct (heap σ !! o); cbn; now rewrite !app_nil_r.
Qed.

Lemma footprint_Get o k : footprint (Get o k) 0.
Proof.
  apply (footprint_bind _ _ 0 0); [apply footprint_deref |].
  intros obj. apply footprint_ret.
Qed.

Lemma footprint_alloc obj : footprint (alloc obj) 0.
Proof. intros σ. exists [obj], []. cbn. now rewrite app_nil_r. Qed.

Lemma footprint_query q : footprint (query q) 1.
Proof.
  intros σ. exists [], [q]. rewrite query_run. cbn.
  now rewrite app_nil_r.
Qed.

Lemma footprint_sqlForPartialUpdate d t : footprint (sqlForPartialUpdate d t) 0.
Proof.
  intros σ. exists [], []. rewrite sqlForPartialUpdate_store.
  now rewrite !app_nil_r.
Qed.

(** A statement, then a choice on its rows that sends nothing more. *)
Lemma footprint_query_then {B} q (f : list JsObject → M B) :
  (∀ rows, footprint (f rows) 0) → footprint (bind (query q) f) 1.
Proof.
  intros Hf. apply (footprint_bind _ _ 1 0); [apply footprint_query | exact Hf].
Qed.

End FootprintFacts.

(** Footprint of a chain: a step that sends nothing, then the rest. *)
Ltac footprint_step lem n :=
  apply (footprint_bind _ _ 0 n); [apply lem | intros ?].

Ltac footprint_rows :=
  apply footprint_query_then;
  let rows := fresh "rows" in
  intros rows; destruct rows; first [apply footprint_ret | apply footprint_throw].

Section FootprintModels.
Context `{Environment}.

Lemma footprint_default_filters (filters : option nat) :
  footprint match filters with
            | Some o => ret o
            | None => alloc []
            end 0.
Proof. destruct filters; [apply footprint_ret | apply footprint_alloc]. Qed.

Lemma footprint_Company_create data : footprint (Company.create data) 2.
Proof.
  unfold Company.create. do 5 footprint_step footprint_Get 2.
  apply (footprint_bind _ _ 1 1); [apply footprint_query |].
  intros [| row rows].
  - footprint_rows.
  - apply (footprint_weaken _ 0); [lia | apply footprint_throw].
Qed.

Lemma footprint_Job_create data : footprint (Job.create data) 2.
Proof.
  unfold Job.create. do 5 footprint_step footprint_Get 2.
  apply (footprint_bind _ _ 1 1); [apply footprint_query |].
  intros [| row rows].
  - footprint_rows.
  - apply (footprint_weaken _ 0); [lia | apply footprint_throw].
Qed.

Lemma footprint_Company_findAll filters : footprint (Company.findAll filters) 1.
Proof.
  unfold Company.findAll. footprint_step footprint_default_filters 1.
  do 3 footprint_step footprint_Get 1.
  repeat match goal with
         | |- context [isUndefined ?v] => destruct (isUndefined v)
         end;
    cbv beta iota zeta delta [negb];
    (apply footprint_query_then; intros; apply footprint_ret).
Qed.

Lemma footprint_Job_findAll filters : footprint (Job.findAll filters) 1.
Proof.
  unfold Job.findAll. footprint_step footprint_default_filters 1.
  do 3 footprint_step footprint_Get 1.
  repeat match goal with
         | |- context [isUndefined ?v] => destruct (isUndefined v)
         | |- context [isFalse ?v] => destruct (isFalse v)
         end;
    cbv beta iota zeta delta [negb];
    (apply footprint_query_then; intros; apply footprint_ret).
Qed.

Lemma footprint_Company_update key data :
  footprint (Company.update key data) 1.
Proof.
  unfold Company.update. footprint_step footprint_alloc 1.
  footprint_step footprint_sqlForPartialUpdate 1. footprint_rows.
Qed.

Lemma footprint_Job_update key data : footprint (Job.update key data) 1.
Proof.
  unfold Job.update. footprint_step footprint_alloc 1.
  footprint_step footprint_sqlForPartialUpdate 1. footprint_rows.
Qed.

End FootprintModels.

(** X4 (footprints). Whatever its arguments and whatever the database
    answers, and also when it throws, no function of the two modules
    changes or removes an object of the heap (its arguments among them):
    it may only add objects. [create] sends at most two statements, every
    other function at most one, and the compiler none; statements already
    sent stay as they were. *)
Theorem models_footprint `{Environment} :
  (∀ d t, footprint (sqlForPartialUpdate d t) 0)
  ∧ (∀ data, footprint (Company.create data) 2)
  ∧ (∀ filters, footprint (Company.findAll filters) 1)
  ∧ (∀ handle, footprint (Company.get handle) 1)
  ∧ (∀ handle data, footprint (Company.update handle data) 1)
  ∧ (∀ handle, footprint (Company.remove handle) 1)
  ∧ (∀ data, footprint (Job.create data) 2)
  ∧ (∀ filters, footprint (Job.findAll filters) 1)
  ∧ (∀ id, footprint (Job.get id) 1)
  ∧ (∀ id data, footprint (Job.update id data) 1)
  ∧ (∀ id, footprint (Job.remove id) 1).
Proof.
  repeat split.
  - apply footprint_sqlForPartialUpdate.
  - apply footprint_Company_create.
  - apply footprint_Company_findAll.
  - intros handle. unfold Company.get. footprint_rows.
  - apply footprint_Company_update.
  - intros handle. unfold Company.remove. footprint_rows.
  - apply footprint_Job_create.
  - apply footprint_Job_findAll.
  - intros id. unfold Job.get. footprint_rows.
  - apply footprint_Job_update.
  - intros id. unfold Job.remove. footprint_rows.
Qed.

(** ** What the callers return *)

Section Outcomes.
Context `{Environment}.

Lemma Company_update_run (σ : Store) handle data (payload : JsObject) :
  heap σ !! data = Some payload → payload ≠ [] →
  ∃ q,
    Company.update handle data σ
    = (match (db_query q (db σ)).1 with
       | inl e => inl e
       | inr [] =>
           inl (NotFoundError ("No company: " +:+ ToString handle))
       | inr (company :: _) => inr company
       end,
       {| heap := heap σ ++ [Company.jsToSql];
          db := (db_query q (db σ)).2; issued := issued σ ++ [q] |}).
Proof.
  intros Hd Hne.
  exists {| text :=
              Company.querySql
                (Array_join
                   (imap (λ i k,
                            colTemplate
                              (get_property objectPrototype Company.jsToSql k)
                              k i)
                         (own_keys payload)) ", ")
                ("$" +:+ pretty (length (own_values payload) + 1));
            params := own_values payload ++ [handle] |}.
  unfold Company.update. run_update σ.
  unfold bind. rewrite query_run. cbn [fst snd heap db issued].
  destruct (db_query _ (db σ)).1 as [e | [| company rows]]; reflexivity.
Qed.

Lemma Job_update_run (σ : Store) id data (payload : JsObject) :
  heap σ !! data = Some payload → payload ≠ [] →
  ∃ q,
    Job.update id data σ
    = (match (db_query q (db σ)).1 with
       | inl e => inl e
       | inr [] => inl (NotFoundError ("No job: " +:+ ToString id))
       | inr (job :: _) => inr job
       end,
       {| heap := heap σ ++ [Job.jsToSql];
          db := (db_query q (db σ)).2; issued := issued σ ++ [q] |}).
Proof.
  intros Hd Hne.
  exists {| text :=
              Job.querySql
                (Array_join
                   (imap (λ i k,
                            colTemplate
                              (get_property objectPrototype Job.jsToSql k)
                              k i)
                         (own_keys payload)) ", ")
                ("$" +:+ pretty (length (own_values payload) + 1));
            params := own_values payload ++ [id] |}.
  unfold Job.update. run_update σ.
  unfold bind. rewrite query_run. cbn [fst snd heap db issued].
  destruct (db_query _ (db σ)).1 as [e | [| job rows]]; reflexivity.
Qed.

End Outcomes.

(** X5 (what [update] returns). With a payload that has a key, each
    [update] sends its one statement and then: returns the first row of
    the answer, whatever rows follow it; throws [NotFoundError], the
    message naming the key value, when the answer has no row, the
    statement having been sent all the same; throws what the database
    rejected with. The database is left as the statement left it. *)
Theorem update_outcomes `{Environment}
    (σ : Store) key data (payload : JsObject) :
  heap σ !! data = Some payload → payload ≠ [] → wf_value key →
  (∃ q,
     issued (Company.update key data σ).2 = issued σ ++ [q]
     ∧ (Company.update key data σ).1
       = match (db_query q (db σ)).1 with
         | inl e => inl e
         | inr [] => inl (NotFoundError ("No company: " +:+ ToString key))
         | inr (company :: _) => inr company
         end
     ∧ db (Company.update key data σ).2 = (db_query q (db σ)).2)
  ∧ (∃ q,
     issued (Job.update key data σ).2 = issued σ ++ [q]
     ∧ (Job.update key data σ).1
       = match (db_query q (db σ)).1 with
         | inl e => inl e
         | inr [] => inl (NotFoundError ("No job: " +:+ ToString key))
         | inr (job :: _) => inr job
         end
     ∧ db (Job.update key data σ).2 = (db_query q (db σ)).2).
Proof.
  intros Hd Hne _. split.
  - destruct (Company_update_run σ key data payload Hd Hne) as [q Hq].
    exists q. now rewrite Hq.
  - destruct (Job_update_run σ key data payload Hd Hne) as [q Hq].
    exists q. now rewrite Hq.
Qed.

Lemma update_outcomes_witness :
  (∃ q,
     issued (Company.update (JsString "nope") 0 aliyaStore).2
     = issued aliyaStore ++ [q]
     ∧ (Company.update (JsString "nope") 0 aliyaStore).1
       = match (@db_query noRowEnv q (db aliyaStore)).1 with
         | inl e => inl e
         | inr [] =>
             inl (NotFoundError ("No company: " +:+ ToString (JsString "nope")))
         | inr (company :: _) => inr company
         end
     ∧ db (Company.update (JsString "nope") 0 aliyaStore).2
       = (@db_query noRowEnv q (db aliyaStore)).2)
  ∧ (∃ q,
     issued (Job.update (JsString "nope") 0 aliyaStore).2
     = issued aliyaStore ++ [q]
     ∧ (Job.update (JsString "nope") 0 aliyaStore).1
       = match (@db_query noRowEnv q (db aliyaStore)).1 with
         | inl e => inl e
         | inr [] =>
             inl (NotFoundError ("No job: " +:+ ToString (JsString "nope")))
         | inr (job :: _) => inr job
         end
     ∧ db (Job.update (JsString "nope") 0 aliyaStore).2
       = (@db_query noRowEnv q (db aliyaStore)).2).
Proof.
  apply (update_outcomes (H := noRowEnv) aliyaStore (JsString "nope") 0
           [("firstName", JsString "Aliya"); ("age", JsNumber 32)]).
  - reflexivity.
  - discriminate.
  - exact I.
Defined.

(** X6 (what [get] and [remove] return). Each sends its one statement,
    with the key value as its one parameter, and then: [get] returns the
    first row of the answer and [remove] returns [undefined] when the answer
    has a row; both throw [NotFoundError], the message naming the key value,
    when it has none, [remove] having sent its [DELETE] all the same; both
    throw what the database rejected with. The heap is as before. *)
Theorem get_remove_outcomes `{Environment} (σ : Store) key :
  wf_value key →
  (let q := {| text := Company.getSql; params := [key] |} in
   Company.get key σ
   = (match (db_query q (db σ)).1 with
      | inl e => inl e
      | inr [] => inl (NotFoundError ("No company: " +:+ ToString key))
      | inr (company :: _) => inr company
      end,
      {| heap := heap σ; db := (db_query q (db σ)).2;
         issued := issued σ ++ [q] |}))
  ∧ (let q := {| text := Company.removeSql; params := [key] |} in
     Company.remove key σ
     = (match (db_query q (db σ)).1 with
        | inl e => inl e
        | inr [] => inl (NotFoundError ("No company: " +:+ ToString key))
        | inr (_ :: _) => inr tt
        end,
        {| heap := heap σ; db := (db_query q (db σ)).2;
           issued := issued σ ++ [q] |}))
  ∧ (let q := {| text := Job.getSql; params := [key] |} in
     Job.get key σ
     = (match (db_query q (db σ)).1 with
        | inl e => inl e
        | inr [] => inl (NotFoundError ("No job: " +:+ ToString key))
        | inr (job :: _) => inr job
        end,
        {| heap := heap σ; db := (db_query q (db σ)).2;
           issued := issued σ ++ [q] |}))
  ∧ (let q := {| text := Job.removeSql; params := [key] |} in
     Job.remove key σ
     = (match (db_query q (db σ)).1 with
        | inl e => inl e
        | inr [] => inl (NotFoundError ("No job: " +:+ ToString key))
        | inr (_ :: _) => inr tt
        end,
        {| heap := heap σ; db := (db_query q (db σ)).2;
           issued := issued σ ++ [q] |})).
Proof.
  intros _. repeat split; cbv zeta;
    unfold Company.get, Company.remove, Job.get, Job.remove, bind;
    rewrite query_run;
    destruct (db_query _ (db σ)).1 as [e | [| row rows]]; reflexivity.
Qed.

Lemma get_remove_outcomes_witness :
  (let q := {| text := Company.getSql; params := [JsNumber 7] |} in
   Company.get (JsNumber 7) vacantStore
   = (match (@db_query noRowEnv q (db vacantStore)).1 with
      | inl e => inl e
      | inr [] => inl (NotFoundError ("No company: " +:+ ToString (JsNumber 7)))
      | inr (company :: _) => inr company
      end,
      {| heap := heap vacantStore; db := (@db_query noRowEnv q (db vacantStore)).2;
         issued := issued vacantStore ++ [q] |}))
  ∧ (let q := {| text := Company.removeSql; params := [JsNumber 7] |} in
     Company.remove (JsNumber 7) vacantStore
     = (match (@db_query noRowEnv q (db vacantStore)).1 with
        | inl e => inl e
        | inr [] => inl (NotFoundError ("No company: " +:+ ToString (JsNumber 7)))
        | inr (_ :: _) => inr tt
        end,
        {| heap := heap vacantStore; db := (@db_query noRowEnv q (db vacantStore)).2;
           issued := issued vacantStore ++ [q] |}))
  ∧ (let q := {| text := Job.getSql; params := [JsNumber 7] |} in
     Job.get (JsNumber 7) vacantStore
     = (match (@db_query noRowEnv q (db vacantStore)).1 with
        | inl e => inl e
        | inr [] => inl (NotFoundError ("No job: " +:+ ToString (JsNumber 7)))
        | inr (job :: _) => inr job
        end,
        {| heap := heap vacantStore; db := (@db_query noRowEnv q (db vacantStore)).2;
           issued := issued vacantStore ++ [q] |}))
  ∧ (let q := {| text := Job.removeSql; params := [JsNumber 7] |} in
     Job.remove (JsNumber 7) vacantStore
     = (match (@db_query noRowEnv q (db vacantStore)).1 with
        | inl e => inl e
        | inr [] => inl (NotFoundError ("No job: " +:+ ToString (JsNumber 7)))
        | inr (_ :: _) => inr tt
        end,
        {| heap := heap vacantStore; db := (@db_query noRowEnv q (db vacantStore)).2;
           issued := issued vacantStore ++ [q] |})).
Proof.
  apply (get_remove_outcomes (H := noRowEnv) vacantStore (JsNumber 7)).
  now vm_compute.
Defined.

Section CreateRuns.
Context `{Environment}.

(** The five reads of a destructured parameter. *)
Lemma create_reads {B} (σ : Store) data (d : JsObject)
    (k1 k2 k3 k4 k5 : string) (f : JsValue → JsValue → JsValue → JsValue →
                                   JsValue → M B) :
  heap σ !! data = Some d →
  bind (Get data k1) (λ v1,
    bind (Get data k2) (λ v2,
      bind (Get data k3) (λ v3,
        bind (Get data k4) (λ v4,
          bind (Get data k5) (λ v5, f v1 v2 v3 v4 v5))))) σ
  = f (get_property objectPrototype d k1) (get_property objectPrototype d k2)
      (get_property objectPrototype d k3) (get_property objectPrototype d k4)
      (get_property objectPrototype d k5) σ.
Proof.
  intros Hd.
  now rewrite !(bind_inr _ _ σ σ _ (Get_object σ data d _ Hd)).
Qed.

End CreateRuns.

(** X7 (a duplicate). When the duplicate check of a [create] is
    answered with a row, that [create] throws [BadRequestError], the
    message naming the key read from the data, having sent that one
    [SELECT]: the [INSERT] is not sent. *)
Theorem create_duplicate `{Environment} (σ : Store) data (d : JsObject) :
  heap σ !! data = Some d →
  (∀ row rows db',
     wf_value (get_property objectPrototype d "handle") →
     db_query {| text := Company.duplicateCheckSql;
                 params := [get_property objectPrototype d "handle"] |} (db σ)
     = (inr (row :: rows), db') →
   Company.create data σ
   = (inl (BadRequestError
             ("Duplicate company: "
              +:+ ToString (get_property objectPrototype d "handle"))),
      {| heap := heap σ; db := db';
         issued :=
           issued σ
           ++ [{| text := Company.duplicateCheckSql;
                  params := [get_property objectPrototype d "handle"] |}] |}))
  ∧ (∀ row rows db',
     wf_value (get_property objectPrototype d "id") →
     db_query {| text := Job.duplicateCheckSql;
                 params := [get_property objectPrototype d "id"] |} (db σ)
     = (inr (row :: rows), db') →
   Job.create data σ
   = (inl (BadRequestError
             ("Duplicate job: "
              +:+ ToString (get_property objectPrototype d "id"))),
      {| heap := heap σ; db := db';
         issued :=
           issued σ
           ++ [{| text := Job.duplicateCheckSql;
                  params := [get_property objectPrototype d "id"] |}] |})).
Proof.
  intros Hd. split; intros row rows db' _ Hq.
  - unfold Company.create. rewrite (create_reads σ data d) by done.
    unfold bind. rewrite query_run, Hq. reflexivity.
  - unfold Job.create. rewrite (create_reads σ data d) by done.
    unfold bind. rewrite query_run, Hq. reflexivity.
Qed.

Lemma create_duplicate_witness :
  (
   Company.create 2 listingStore
   = (inl (BadRequestError
             ("Duplicate company: "
              +:+ ToString (get_property nodePrototype 
                 [("handle", JsString "c1"); ("name", JsString "C1")] "handle"))),
      {| heap := heap listingStore; db := db listingStore;
         issued :=
           issued listingStore
           ++ [{| text := Company.duplicateCheckSql;
                  params := [get_property nodePrototype 
                 [("handle", JsString "c1"); ("name", JsString "C1")] "handle"] |}] |}))
  ∧ (
   Job.create 2 listingStore
   = (inl (BadRequestError
             ("Duplicate job: "
              +:+ ToString (get_property nodePrototype 
                 [("handle", JsString "c1"); ("name", JsString "C1")] "id"))),
      {| heap := heap listingStore; db := db listingStore;
         issued :=
           issued listingStore
           ++ [{| text := Job.duplicateCheckSql;
                  params := [get_property nodePrototype 
                 [("handle", JsString "c1"); ("name", JsString "C1")] "id"] |}] |})).
Proof.
  destruct (create_duplicate (H := oneRowEnv) listingStore 2
              [("handle", JsString "c1"); ("name", JsString "C1")] eq_refl)
    as [Hcompany Hjob].
  split.
  - apply (Hcompany [("handle", JsString "c1")] [] (db listingStore));
      [exact I | reflexivity].
  - apply (Hjob [("handle", JsString "c1")] [] (db listingStore));
      [exact I | reflexivity].
Defined.

(** X8 (a new row). When the duplicate check of a [create] is answered
    with no row, that [create] sends two statements, the [SELECT] and then
    the [INSERT], the latter with the five fields read from the data, in
    the order of its columns, a field the data lacks being [undefined]. It
    returns the first row the [INSERT] is answered with, or [undefined]
    when there is none, or throws what the database rejected the [INSERT]
    with. *)
Theorem create_inserts `{Environment} (σ : Store) data (d : JsObject) :
  heap σ !! data = Some d →
  (∀ db',
     db_query {| text := Company.duplicateCheckSql;
                 params := [get_property objectPrototype d "handle"] |} (db σ)
     = (inr [], db') →
   (let q1 := {| text := Company.duplicateCheckSql;
                 params := [get_property objectPrototype d "handle"] |} in
    let q2 := {| text := Company.insertSql;
                 params := get_property objectPrototype d
                           <$> ["handle"; "name"; "description";
                                "numEmployees"; "logoUrl"] |} in
    Company.create data σ
    = (match (db_query q2 db').1 with
       | inl e => inl e
       | inr rows => inr (head rows)
       end,
       {| heap := heap σ; db := (db_query q2 db').2;
          issued := issued σ ++ [q1; q2] |})))
  ∧ (∀ db',
     db_query {| text := Job.duplicateCheckSql;
                 params := [get_property objectPrototype d "id"] |} (db σ)
     = (inr [], db') →
   (let q1 := {| text := Job.duplicateCheckSql;
                 params := [get_property objectPrototype d "id"] |} in
    let q2 := {| text := Job.insertSql;
                 params := get_property objectPrototype d
                           <$> ["id"; "title"; "salary"; "equity";
                                "companyHandle"] |} in
    Job.create data σ
    = (match (db_query q2 db').1 with
       | inl e => inl e
       | inr rows => inr (head rows)
       end,
       {| heap := heap σ; db := (db_query q2 db').2;
          issued := issued σ ++ [q1; q2] |}))).
Proof.
  intros Hd. split; intros db' Hq; cbv zeta.
  - unfold Company.create. rewrite (create_reads σ data d) by done.
    unfold bind at 1. rewrite query_run, Hq. cbn [fst snd].
    unfold bind. rewrite query_run. cbn [fst snd heap db issued].
    rewrite <- app_assoc. cbn [app fmap list_fmap].
    destruct (db_query _ db').1; reflexivity.
  - unfold Job.create. rewrite (create_reads σ data d) by done.
    unfold bind at 1. rewrite query_run, Hq. cbn [fst snd].
    unfold bind. rewrite query_run. cbn [fst snd heap db issued].
    rewrite <- app_assoc. cbn [app fmap list_fmap].
    destruct (db_query _ db').1; reflexivity.
Qed.

Lemma create_inserts_witness :
  (
   (let q1 := {| text := Company.duplicateCheckSql;
                 params := [get_property nodePrototype 
                           [("handle", JsString "c1"); ("name", JsString "C1")] "handle"] |} in
    let q2 := {| text := Company.insertSql;
                 params := get_property nodePrototype 
                           [("handle", JsString "c1"); ("name", JsString "C1")]
                           <$> ["handle"; "name"; "description";
                                "numEmployees"; "logoUrl"] |} in
    Company.create 2 vacantStore
    = (match (@db_query noRowEnv q2 (db vacantStore)).1 with
       | inl e => inl e
       | inr rows => inr (head rows)
       end,
       {| heap := heap vacantStore; db := (@db_query noRowEnv q2 (db vacantStore)).2;
          issued := issued vacantStore ++ [q1; q2] |})))
  ∧ (
   (let q1 := {| text := Job.duplicateCheckSql;
                 params := [get_property nodePrototype 
                           [("handle", JsString "c1"); ("name", JsString "C1")] "id"] |} in
    let q2 := {| text := Job.insertSql;
                 params := get_property nodePrototype 
                           [("handle", JsString "c1"); ("name", JsString "C1")]
                           <$> ["id"; "title"; "salary"; "equity";
                                "companyHandle"] |} in
    Job.create 2 vacantStore
    = (match (@db_query noRowEnv q2 (db vacantStore)).1 with
       | inl e => inl e
       | inr rows => inr (head rows)
       end,
       {| heap := heap vacantStore; db := (@db_query noRowEnv q2 (db vacantStore)).2;
          issued := issued vacantStore ++ [q1; q2] |}))).
Proof.
  destruct (create_inserts (H := noRowEnv) vacantStore 2
              [("handle", JsString "c1"); ("name", JsString "C1")] eq_refl)
    as [Hcompany Hjob].
  split.
  - apply (Hcompany (db vacantStore)). reflexivity.
  - apply (Hjob (db vacantStore)). reflexivity.
Defined.

(** ** The statement of [findAll] *)

Section FindAllRuns.
Context `{Environment}.

(** The filters object, given or the default, and the three reads of the
    destructuring. *)
Lemma findAll_reads {B} (σ : Store) (arg : option nat) (f : JsObject)
    (k1 k2 k3 : string) (g : JsValue → JsValue → JsValue → M B) :
  match arg with
  | Some o => heap σ !! o = Some f
  | None => f = []
  end →
  bind match arg with
       | Some o => ret o
       | None => alloc []
       end
    (λ filters,
      bind (Get filters k1) (λ v1,
        bind (Get filters k2) (λ v2,
          bind (Get filters k3) (λ v3, g v1 v2 v3)))) σ
  = g (get_property objectPrototype f k1) (get_property objectPrototype f k2)
      (get_property objectPrototype f k3)
      {| heap := match arg with
                 | Some _ => heap σ
                 | None => heap σ ++ [[]]
                 end;
         db := db σ; issued := issued σ |}.
Proof.
  destruct arg as [o |]; intros Hf.
  - rewrite (bind_inr _ _ σ σ o eq_refl).
    rewrite !(bind_inr _ _ σ σ _ (Get_object σ o f _ Hf)).
    now destruct σ.
  - subst f. rewrite (bind_inr _ _ σ _ _ (alloc_run σ [])).
    set (σ' := {| heap := heap σ ++ [[]]; db := db σ; issued := issued σ |}).
    assert (Hf : heap σ' !! length (heap σ) = Some []).
    { now apply list_lookup_middle. }
    now rewrite !(bind_inr _ _ σ' σ' _ (Get_object σ' _ [] _ Hf)).
Qed.

(** A statement whose rows are returned as they are. *)
Lemma bind_query_ret (σ : Store) q :
  bind (query q) (λ rows, ret rows) σ
  = ((db_query q (db σ)).1,
     {| heap := heap σ; db := (db_query q (db σ)).2;
        issued := issued σ ++ [q] |}).
Proof.
  unfold bind. rewrite query_run.
  now destruct (db_query q (db σ)).1.
Qed.

End FindAllRuns.

(** X9 (the statement of [Company.findAll]). Called on a filters object,
    or on none and so on the empty one, it sends one statement. (A number
    among the filters is a safe integer; any other comes as the string it
    is written as.) Its
    conditions are those of the filters that are not [undefined], in the
    order name, minEmployees, maxEmployees; the condition at position [i]
    (from 0) carries the placeholder [$(i+1)] and the [i]-th parameter is
    that filter's value as a string between two percent signs, numeric
    bounds too. The text is the [SELECT], then, if there is a condition,
    [WHERE] and the conditions joined by [" AND "], then [ORDER BY name],
    one after the other with nothing in between. The rows of the answer
    are returned as they are. *)
Theorem Company_findAll_statement `{Environment}
    (σ : Store) (arg : option nat) (f : JsObject) :
  match arg with
  | Some o => heap σ !! o = Some f
  | None => f = []
  end →
  wf_value (get_property objectPrototype f "name") →
  wf_value (get_property objectPrototype f "minEmployees") →
  wf_value (get_property objectPrototype f "maxEmployees") →
  let conditions :=
    List.filter (λ c, negb (isUndefined c.2))
      [("name ILIKE ", get_property objectPrototype f "name");
       ("num_employees >= ", get_property objectPrototype f "minEmployees");
       ("num_employees <= ", get_property objectPrototype f "maxEmployees")] in
  let q :=
    {| text :=
         Company.findAllSql
         +:+ match conditions with
             | [] => EmptyString
             | _ :: _ =>
                 "WHERE"
                 +:+ Array_join
                       (imap (λ i c, c.1 +:+ "$" +:+ pretty (i + 1)) conditions)
                       " AND "
             end
         +:+ "ORDER BY name";
       params := (λ c, JsString ("%" +:+ ToString c.2 +:+ "%")) <$> conditions |} in
  Company.findAll arg σ
  = ((db_query q (db σ)).1,
     {| heap := match arg with
                | Some _ => heap σ
                | None => heap σ ++ [[]]
                end;
        db := (db_query q (db σ)).2; issued := issued σ ++ [q] |}).
Proof.
  intros Hf _ _ _. unfold Company.findAll. cbv zeta.
  rewrite (findAll_reads σ arg f) by exact Hf.
  cbn [List.filter snd].
  destruct (isUndefined (get_property objectPrototype f "name")),
    (isUndefined (get_property objectPrototype f "minEmployees")),
    (isUndefined (get_property objectPrototype f "maxEmployees"));
    cbn [negb]; rewrite bind_query_ret; reflexivity.
Qed.

Lemma Company_findAll_statement_witness :
  let conditions :=
    List.filter (λ c, negb (isUndefined c.2))
      [("name ILIKE ",
        get_property nodePrototype
          [("name", JsString "net"); ("maxEmployees", JsNumber 5)] "name");
       ("num_employees >= ",
        get_property nodePrototype
          [("name", JsString "net"); ("maxEmployees", JsNumber 5)]
          "minEmployees");
       ("num_employees <= ",
        get_property nodePrototype
          [("name", JsString "net"); ("maxEmployees", JsNumber 5)]
          "maxEmployees")] in
  let q :=
    {| text :=
         Company.findAllSql
         +:+ match conditions with
             | [] => EmptyString
             | _ :: _ =>
                 "WHERE"
                 +:+ Array_join
                       (imap (λ i c, c.1 +:+ "$" +:+ pretty (i + 1)) conditions)
                       " AND "
             end
         +:+ "ORDER BY name";
       params := (λ c, JsString ("%" +:+ ToString c.2 +:+ "%")) <$> conditions |} in
  Company.findAll (Some 0) listingStore
  = ((@db_query oneRowEnv q (db listingStore)).1,
     {| heap := heap listingStore;
        db := (@db_query oneRowEnv q (db listingStore)).2;
        issued := issued listingStore ++ [q] |}).
Proof.
  apply (Company_findAll_statement (H := oneRowEnv) listingStore (Some 0)
           [("name", JsString "net"); ("maxEmployees", JsNumber 5)]).
  - reflexivity.
  - exact I.
  - exact I.
  - now vm_compute.
Defined.

(** X10 (the statement of [Job.findAll]). As for companies, with the
    conditions in the order title, equity, minSalary, and [ORDER BY title].
    The title and minSalary conditions are there when the filter is not
    [undefined], their parameter the filter's value as a string between two
    percent signs. The equity condition is there unless [hasEquity] is the
    boolean [false], its parameter the fixed string [%True%]. *)
Theorem Job_findAll_statement `{Environment}
    (σ : Store) (arg : option nat) (f : JsObject) :
  match arg with
  | Some o => heap σ !! o = Some f
  | None => f = []
  end →
  wf_value (get_property objectPrototype f "title") →
  wf_value (get_property objectPrototype f "minSalary") →
  let conditions :=
    List.filter (λ c, c.2)
      [("title ILIKE ",
        "%" +:+ ToString (get_property objectPrototype f "title") +:+ "%",
        negb (isUndefined (get_property objectPrototype f "title")));
       ("equity > ", "%True%",
        negb (isFalse (get_property objectPrototype f "hasEquity")));
       ("salary >= ",
        "%" +:+ ToString (get_property objectPrototype f "minSalary") +:+ "%",
        negb (isUndefined (get_property objectPrototype f "minSalary")))] in
  let q :=
    {| text :=
         Job.findAllSql
         +:+ match conditions with
             | [] => EmptyString
             | _ :: _ =>
                 "WHERE"
                 +:+ Array_join
                       (imap (λ i c, c.1.1 +:+ "$" +:+ pretty (i + 1))
                             conditions)
                       " AND "
             end
         +:+ "ORDER BY title";
       params := (λ c, JsString c.1.2) <$> conditions |} in
  Job.findAll arg σ
  = ((db_query q (db σ)).1,
     {| heap := match arg with
                | Some _ => heap σ
                | None => heap σ ++ [[]]
                end;
        db := (db_query q (db σ)).2; issued := issued σ ++ [q] |}).
Proof.
  intros Hf _ _. unfold Job.findAll. cbv zeta.
  rewrite (findAll_reads σ arg f) by exact Hf.
  cbn [List.filter snd].
  destruct (isUndefined (get_property objectPrototype f "title")),
    (isFalse (get_property objectPrototype f "hasEquity")),
    (isUndefined (get_property objectPrototype f "minSalary"));
    cbn [negb]; rewrite bind_query_ret; reflexivity.
Qed.

Lemma Job_findAll_statement_witness :
  let conditions :=
    List.filter (λ c, c.2)
      [("title ILIKE ",
        "%" +:+ ToString (get_property nodePrototype [("hasEquity", JsBoolean false)] "title") +:+ "%",
        negb (isUndefined (get_property nodePrototype [("hasEquity", JsBoolean false)] "title")));
       ("equity > ", "%True%",
        negb (isFalse (get_property nodePrototype [("hasEquity", JsBoolean false)] "hasEquity")));
       ("salary >= ",
        "%" +:+ ToString (get_property nodePrototype [("hasEquity", JsBoolean false)] "minSalary") +:+ "%",
        negb (isUndefined (get_property nodePrototype [("hasEquity", JsBoolean false)] "minSalary")))] in
  let q :=
    {| text :=
         Job.findAllSql
         +:+ match conditions with
             | [] => EmptyString
             | _ :: _ =>
                 "WHERE"
                 +:+ Array_join
                       (imap (λ i c, c.1.1 +:+ "$" +:+ pretty (i + 1))
                             conditions)
                       " AND "
             end
         +:+ "ORDER BY title";
       params := (λ c, JsString c.1.2) <$> conditions |} in
  Job.findAll (Some 1) listingStore
  = ((@db_query oneRowEnv q (db listingStore)).1,
     {| heap := heap listingStore;
        db := (@db_query oneRowEnv q (db listingStore)).2;
        issued := issued listingStore ++ [q] |}).
Proof.
  apply (Job_findAll_statement (H := oneRowEnv) listingStore (Some 1)
           [("hasEquity", JsBoolean false)]).
  - reflexivity.
  - exact I.
  - exact I.
Defined.

(** X11 (equity by default). Unless [hasEquity] is the boolean [false],
    so also when it is not given and when [findAll] is called with no
    argument, the statement of [Job.findAll] has a [WHERE] with the
    condition [equity > $n], and [%True%] as its [n]-th parameter. *)
Theorem Job_findAll_equity `{Environment}
    (σ : Store) (arg : option nat) (f : JsObject) :
  match arg with
  | Some o => heap σ !! o = Some f
  | None => f = []
  end →
  isFalse (get_property objectPrototype f "hasEquity") = false →
  ∃ q conditions i,
    issued (Job.findAll arg σ).2 = issued σ ++ [q]
    ∧ text q
      = Job.findAllSql +:+ "WHERE" +:+ Array_join conditions " AND "
        +:+ "ORDER BY title"
    ∧ conditions !! i = Some ("equity > $" +:+ pretty (i + 1))
    ∧ params q !! i = Some (JsString "%True%").
Proof.
  intros Hf He. unfold Job.findAll. cbv zeta.
  rewrite (findAll_reads σ arg f) by exact Hf. rewrite He.
  destruct (isUndefined (get_property objectPrototype f "title")),
    (isUndefined (get_property objectPrototype f "minSalary"));
    cbn [negb]; rewrite bind_query_ret;
    eexists _, _, _; (split; [reflexivity |]);
    cbn [text params fmap list_fmap imap fst snd];
    first
      [ (split; [reflexivity |]); split;
        [ instantiate (1 := 0); reflexivity | reflexivity ]
      | (split; [reflexivity |]); split;
        [ instantiate (1 := 1); reflexivity | reflexivity ] ].
Qed.

Lemma Job_findAll_equity_witness :
  ∃ q conditions i,
    issued (Job.findAll None vacantStore).2 = issued vacantStore ++ [q]
    ∧ text q
      = Job.findAllSql +:+ "WHERE" +:+ Array_join conditions " AND "
        +:+ "ORDER BY title"
    ∧ conditions !! i = Some ("equity > $" +:+ pretty (i + 1))
    ∧ params q !! i = Some (JsString "%True%").
Proof.
  apply (Job_findAll_equity (H := noRowEnv) vacantStore None []).
  - reflexivity.
  - reflexivity.
Defined.
